(** * Electricity billing (faturamento_energia.py)

    A shallow embedding of the pure calculation core of
    [faturamento_energia.py]: input validation, progressive bracket
    tariffs, flag surcharge, taxes, and the invariant check.

    Python's [float] is IEEE 754 binary64, so every number of the program
    is a primitive [float] here, with the arithmetic and comparisons of the
    kernel (specified by [FloatAxioms] through [SpecFloat]).  The integer
    literals of the tariff table (0, 100, 200, 500) are taken at their
    float value: they are far below 2^53, so Python's mixed int/float
    arithmetic and comparisons agree with float arithmetic on them.

    Python strings are [string]s (bytes; non-ASCII text is its UTF-8
    encoding).  Dictionaries whose iteration order matters ([BANDEIRAS],
    [IMPOSTOS], the tax breakdown) are association lists in insertion
    order.  A raised exception is a value of [exn] in the [outcome] of a
    call. *)

From Stdlib Require Import ZArith List String Ascii Bool Lia Floats DecimalString.
Import ListNotations.

Set Warnings "-inexact-float".

Local Open Scope string_scope.
Local Open Scope float_scope.

(* ====================================================================== *)
(** * Python runtime: exceptions, strings, dictionaries, floats *)
(* ====================================================================== *)

Module Py.

(** Exceptions the core can raise. *)
Inductive exn : Type :=
| KeyError (key : string)
| ValueError.

(** The result of a call: a returned value or a raised exception. *)
Inductive outcome (A : Type) : Type :=
| Returned (a : A)
| Raised (e : exn).
Arguments Returned {A} a.
Arguments Raised {A} e.

Definition bind {A B : Type} (c : outcome A) (k : A -> outcome B) : outcome B :=
  match c with
  | Returned a => k a
  | Raised e => Raised e
  end.

(** ** Strings *)

Definition ascii_code (c : ascii) : N := N_of_ascii c.

(** [str.replace(old, new)] for single characters. *)
Fixpoint replace_char (old new : ascii) (s : string) : string :=
  match s with
  | EmptyString => EmptyString
  | String c s' =>
      String (if Ascii.eqb c old then new else c) (replace_char old new s')
  end.

(** ASCII lower-casing of one character ([Py_TOLOWER]). *)
Definition tolower (c : ascii) : ascii :=
  let n := ascii_code c in
  if ((65 <=? n) && (n <=? 90))%N then ascii_of_N (n + 32) else c.

(** [str.lower()] on ASCII text; bytes at or above 128 are kept. *)
Fixpoint lower (s : string) : string :=
  match s with
  | EmptyString => EmptyString
  | String c s' => String (tolower c) (lower s')
  end.

(** [sep.join(xs)]. *)
Fixpoint join (sep : string) (xs : list string) : string :=
  match xs with
  | [] => ""
  | [x] => x
  | x :: rest => x ++ sep ++ join sep rest
  end.

(** ** Dictionaries with insertion order *)

Definition dict (V : Type) : Type := list (string * V).

Fixpoint get {V : Type} (d : dict V) (k : string) : option V :=
  match d with
  | [] => None
  | (k', v) :: d' => if String.eqb k' k then Some v else get d' k
  end.

(** [k in d]. *)
Definition contains {V : Type} (d : dict V) (k : string) : bool :=
  match get d k with Some _ => true | None => false end.

Definition keys {V : Type} (d : dict V) : list string := map fst d.
Definition values {V : Type} (d : dict V) : list V := map snd d.

(** [d[k]]: raises [KeyError] on a missing key. *)
Definition getitem {V : Type} (d : dict V) (k : string) : outcome V :=
  match get d k with
  | Some v => Returned v
  | None => Raised (KeyError k)
  end.

(** ** Floats *)

(** [min(a, b)]: the first argument unless the second is smaller. *)
Definition min (a b : float) : float := if b <? a then b else a.

(** [functools.reduce(f, xs, init)]. *)
Definition reduce {A B : Type} (f : A -> B -> A) (xs : list B) (init : A) : A :=
  fold_left f xs init.

(** [int(x)] for a finite float: truncation toward zero.  (Python raises
    on an infinity or a NaN; the program applies [int] to the finite
    bounds of the tariff table only, and those cases give 0 here.) *)
Definition int (x : float) : Z :=
  match Prim2SF x with
  | S754_finite s m e =>
      let a := match e with
               | Zneg p => Z.shiftr (Zpos m) (Zpos p)
               | _ => Z.shiftl (Zpos m) e
               end in
      if s then Z.opp a else a
  | _ => 0%Z
  end.

(** [str(n)] for an integer. *)
Definition str_of_int (n : Z) : string := NilZero.string_of_int (Z.to_int n).

(** *** [float(s)]

    CPython's [PyFloat_FromString] on ASCII text: strip ASCII white space
    at both ends, accept underscores between digits, then read either a
    decimal numeral [[+-]digits[.digits][(e|E)[+-]digits]] (at least one
    digit in the mantissa) or, case-insensitively, [[+-]inf],
    [[+-]infinity] or [[+-]nan].  The numeral is rounded to the nearest
    binary64 value, ties to even; overflow gives an infinity and underflow
    a zero.  Anything else raises [ValueError].  (CPython also maps
    non-ASCII decimal digits and white space to ASCII first, and refuses
    more than 10^9 digits; neither is modelled.) *)

Definition is_space (c : ascii) : bool :=
  let n := ascii_code c in (((9 <=? n) && (n <=? 13)) || (n =? 32))%N.

Definition is_digit (c : ascii) : bool :=
  let n := ascii_code c in ((48 <=? n) && (n <=? 57))%N.

Definition digit_val (c : ascii) : Z := Z.of_N (ascii_code c - 48).

Fixpoint lstrip (s : list ascii) : list ascii :=
  match s with
  | c :: s' => if is_space c then lstrip s' else s
  | [] => []
  end.

Definition strip (s : list ascii) : list ascii :=
  rev (lstrip (rev (lstrip s))).

(** Underscores: allowed only between two digits; they are removed.
    [prev] is the previous character of the input ([None] at the start). *)
Fixpoint drop_underscores (prev : option ascii) (s : list ascii)
  : option (list ascii) :=
  match s with
  | [] =>
      match prev with
      | Some "_"%char => None
      | _ => Some []
      end
  | c :: s' =>
      if Ascii.eqb c "_" then
        match prev with
        | Some p => if is_digit p then drop_underscores (Some c) s' else None
        | None => None
        end
      else
        let ok := match prev with
                  | Some "_"%char => is_digit c
                  | _ => true
                  end in
        if ok then option_map (cons c) (drop_underscores (Some c) s') else None
  end.

(** Reads a maximal run of digits: its value appended to [acc], its
    length, and the rest of the input. *)
Fixpoint read_digits (acc : Z) (len : Z) (s : list ascii) : Z * Z * list ascii :=
  match s with
  | c :: s' =>
      if is_digit c then read_digits (10 * acc + digit_val c) (len + 1) s'
      else (acc, len, s)
  | [] => (acc, len, [])
  end.

Definition read_sign (s : list ascii) : bool * list ascii :=
  match s with
  | "-"%char :: s' => (true, s')
  | "+"%char :: s' => (false, s')
  | _ => (false, s)
  end.

(** The binary64 value nearest to [(-1)^neg * m * 10^e]. *)
Definition of_decimal (neg : bool) (m : Z) (e : Z) : float :=
  match m with
  | Zpos pm =>
      match e with
      | Zneg pe =>
          let '(q, e', l) :=
            SFdiv_core_binary prec emax (Zpos pm) 0 (Z.pow 10 (Zpos pe)) 0 in
          SF2Prim (binary_round_aux prec emax neg q e' l)
      | _ => SF2Prim (binary_normalize prec emax
                        (if neg then Z.opp (m * Z.pow 10 e) else m * Z.pow 10 e)
                        0 false)
      end
  | _ => if neg then neg_zero else zero
  end.

(** The exponent part [(e|E)[+-]digits] at the head of [s], if complete. *)
Definition read_exponent (s : list ascii) : Z * list ascii :=
  match s with
  | c :: s' =>
      if Ascii.eqb (tolower c) "e" then
        let '(eneg, s1) := read_sign s' in
        let '(v, len, s2) := read_digits 0 0 s1 in
        if (len =? 0)%Z then (0%Z, s) else ((if eneg then Z.opp v else v), s2)
      else (0%Z, s)
  | [] => (0%Z, s)
  end.

(** The decimal numeral, which must span all of [s]. *)
Definition parse_decimal (s : list ascii) : option float :=
  let '(neg, s1) := read_sign s in
  let '(ip, ilen, s2) := read_digits 0 0 s1 in
  let '(m, flen, s3) :=
    match s2 with
    | "."%char :: s2' =>
        let '(m, flen, s3) := read_digits ip 0 s2' in (m, flen, s3)
    | _ => (ip, 0%Z, s2)
    end in
  if (ilen + flen =? 0)%Z then None
  else
    let '(ex, s4) := read_exponent s3 in
    match s4 with
    | [] => Some (of_decimal neg m (ex - flen))
    | _ => None
    end.

Definition lower_list (s : list ascii) : list ascii := map tolower s.

Definition list_eqb (a b : list ascii) : bool :=
  String.eqb (string_of_list_ascii a) (string_of_list_ascii b).

(** [[+-]inf], [[+-]infinity], [[+-]nan], case-insensitively. *)
Definition parse_inf_or_nan (s : list ascii) : option float :=
  let '(neg, s1) := read_sign s in
  let w := lower_list s1 in
  if list_eqb w (list_ascii_of_string "inf")
     || list_eqb w (list_ascii_of_string "infinity")
  then Some (if neg then neg_infinity else infinity)
  else if list_eqb w (list_ascii_of_string "nan") then Some nan
  else None.

(** [float(s)]; [None] stands for [ValueError]. *)
Definition float_of_string (s : string) : option float :=
  match strip (list_ascii_of_string s) with
  | [] => None
  | t =>
      match drop_underscores None t with
      | None => None
      | Some u =>
          match parse_decimal u with
          | Some x => Some x
          | None => parse_inf_or_nan u
          end
      end
  end.

End Py.

(* ====================================================================== *)
(** * Configuration tables *)
(* ====================================================================== *)

(** A consumption bracket [(inicio, fim, tarifa)]. *)
Record faixa_tarifa : Type := mk_faixa_tarifa {
  inicio : float;
  fim : float;
  tarifa : float
}.

Definition TARIFAS_FAIXAS : list faixa_tarifa :=
  [ mk_faixa_tarifa 0 100 0.50;
    mk_faixa_tarifa 100 200 0.75;
    mk_faixa_tarifa 200 500 1.00;
    mk_faixa_tarifa 500 infinity 1.35 ].

Definition BANDEIRAS : Py.dict float :=
  [ ("verde", 0.0); ("amarela", 0.05); ("vermelha", 0.10) ].

Definition IMPOSTOS : Py.dict float :=
  [ ("ICMS", 0.18); ("PIS", 0.0165); ("COFINS", 0.0761) ].

(* ====================================================================== *)
(** * Validation *)
(* ====================================================================== *)

Definition msg_negativo : string := "O valor deve ser positivo".
Definition msg_invalido : string := "Valor inválido. Digite um número válido".

(** [validar_numero_positivo]: [(é_válido, valor_convertido, mensagem_erro)].
    The [ValueError] of [float] is caught and reported as a message. *)
Definition validar_numero_positivo (valor : string)
  : bool * option float * string :=
  match Py.float_of_string (Py.replace_char "," "." valor) with
  | Some num =>
      if num <? 0 then (false, None, msg_negativo)
      else (true, Some num, "")
  | None => (false, None, msg_invalido)
  end.

(** [validar_bandeira]: [(é_válida, mensagem_erro)]. *)
Definition validar_bandeira (bandeira : string) : bool * string :=
  let bandeira_lower := Py.lower bandeira in
  if Py.contains BANDEIRAS bandeira_lower then (true, "")
  else (false, "Bandeira inválida. Use: " ++ Py.join ", " (Py.keys BANDEIRAS)).

(** [validar_entradas]:
    [(sucesso, consumo_validado, bandeira_validada, mensagem_erro)]. *)
Definition validar_entradas (consumo bandeira : string)
  : bool * option float * string * string :=
  let '(valido_consumo, consumo_val, msg_consumo) :=
    validar_numero_positivo consumo in
  if negb valido_consumo then (false, None, "", msg_consumo)
  else
    let '(valido_bandeira, msg_bandeira) := validar_bandeira bandeira in
    if negb valido_bandeira then (false, None, "", msg_bandeira)
    else (true, consumo_val, Py.lower bandeira, "").

(* ====================================================================== *)
(** * Calculation *)
(* ====================================================================== *)

(** One line of the bracket breakdown (the dictionary with keys
    ['faixa'], ['kwh'], ['tarifa'], ['valor']). *)
Record item_faixa : Type := mk_item_faixa {
  faixa_rotulo : string;
  kwh : float;
  item_tarifa : float;
  valor : float
}.

(** [calcular_faixa]: [(kwh_consumido_nesta_faixa, valor_faixa)]. *)
Definition calcular_faixa (consumo_restante : float) (faixa : faixa_tarifa)
  : float * float :=
  let kwh_faixa := fim faixa - inicio faixa in
  let kwh_usado := Py.min consumo_restante kwh_faixa in
  let valor := kwh_usado * tarifa faixa in
  (kwh_usado, valor).

(** The label of a bracket:
    [f"{int(faixa[0])}-{int(faixa[1]) if faixa[1] != float('inf') else '∞'} kWh"]. *)
Definition rotulo (faixa : faixa_tarifa) : string :=
  Py.str_of_int (Py.int (inicio faixa)) ++ "-"
  ++ (if negb (fim faixa =? infinity) then Py.str_of_int (Py.int (fim faixa))
      else "∞")
  ++ " kWh".

(** The [for] loop of [calcular_tarifacao_por_faixas] over the brackets
    still to visit, with the loop variables [consumo_restante] and
    [resultados]; the first branch is the [break]. *)
Fixpoint laco_faixas (faixas : list faixa_tarifa) (consumo_restante : float)
  (resultados : list item_faixa) : list item_faixa :=
  match faixas with
  | [] => resultados
  | faixa :: resto =>
      if consumo_restante <=? 0 then resultados
      else
        let '(kwh_usado, valor) := calcular_faixa consumo_restante faixa in
        let resultados' :=
          if 0 <? kwh_usado then
            (resultados
               ++ [mk_item_faixa (rotulo faixa) kwh_usado (tarifa faixa) valor])%list
          else resultados in
        laco_faixas resto (consumo_restante - kwh_usado) resultados'
  end.

Definition calcular_tarifacao_por_faixas (consumo : float) : list item_faixa :=
  laco_faixas TARIFAS_FAIXAS consumo [].

Definition calcular_adicional_bandeira (subtotal : float) (bandeira : string)
  : Py.outcome float :=
  Py.bind (Py.getitem BANDEIRAS bandeira) (fun taxa =>
  Py.Returned (subtotal * taxa)).

Definition calcular_imposto (base_calculo aliquota : float) : float :=
  base_calculo * aliquota.

Definition calcular_impostos (base_calculo : float) : Py.dict float :=
  map (fun item => (fst item, calcular_imposto base_calculo (snd item))) IMPOSTOS.

(** The dictionary returned by [calcular_faturamento]. *)
Record fatura : Type := mk_fatura {
  consumo_kwh : float;
  bandeira : string;
  faixas : list item_faixa;
  subtotal_consumo : float;
  adicional_bandeira : float;
  base_impostos : float;
  impostos : Py.dict float;
  total_impostos : float;
  total_final : float
}.

Definition soma_valores (fs : list item_faixa) : float :=
  Py.reduce (fun acc faixa => acc + valor faixa) fs 0.0.

Definition calcular_faturamento (consumo : float) (bandeira : string)
  : Py.outcome fatura :=
  let faixas_detalhadas := calcular_tarifacao_por_faixas consumo in
  let subtotal_consumo := soma_valores faixas_detalhadas in
  Py.bind (calcular_adicional_bandeira subtotal_consumo bandeira)
    (fun adicional_bandeira =>
  let base_impostos := subtotal_consumo + adicional_bandeira in
  let impostos_detalhados := calcular_impostos base_impostos in
  let total_impostos :=
    Py.reduce (fun acc valor => acc + valor) (Py.values impostos_detalhados) 0.0 in
  let total_final := base_impostos + total_impostos in
  Py.Returned
    (mk_fatura consumo bandeira faixas_detalhadas subtotal_consumo
       adicional_bandeira base_impostos impostos_detalhados total_impostos
       total_final)).

Definition verificar_invariantes (resultado : fatura) : bool :=
  if total_final resultado <? 0 then false
  else
    let soma_faixas := soma_valores (faixas resultado) in
    let recalculo :=
      soma_faixas + adicional_bandeira resultado + total_impostos resultado in
    let diferenca := abs (recalculo - total_final resultado) in
    diferenca <? 0.01.

(* ====================================================================== *)
(** * The button handler *)
(* ====================================================================== *)

(** What the button handler does with the texts of its two widgets:
    [messagebox.showerror(titulo, mensagem)] or
    [self.exibir_resultado(resultado)]. *)
Inductive acao : Type :=
| MostrarErro (titulo mensagem : string)
| ExibirResultado (resultado : fatura).

(** An exception that leaves the handler: one of the calculation, or the
    [TypeError] of comparing [None] with a number. *)
Inductive excecao : Type :=
| DoCalculo (e : Py.exn)
| TypeError.

(** [SistemaFaturamentoEnergia.calcular], from the texts read off the
    entry and the combo box to the action taken. *)
Definition calcular (consumo_str bandeira : string) : acao + excecao :=
  let '(valido, consumo, bandeira_validada, erro) :=
    validar_entradas consumo_str bandeira in
  if negb valido then inl (MostrarErro "Erro de Validação" erro)
  else
    match consumo with
    | None => inr TypeError
    | Some c =>
        match calcular_faturamento c bandeira_validada with
        | Py.Raised e => inr (DoCalculo e)
        | Py.Returned resultado =>
            if negb (verificar_invariantes resultado) then
              inl (MostrarErro "Erro" "Falha na verificação dos invariantes!")
            else inl (ExibirResultado resultado)
        end
    end.

(* ====================================================================== *)
(** * Notions used in the statements *)
(* ====================================================================== *)

(** The bill for 250 kWh under the green flag, as the program computes it. *)
Definition fatura_250_verde : fatura :=
  {| consumo_kwh := 250;
     bandeira := "verde";
     faixas :=
       [ mk_item_faixa "0-100 kWh" 100 0.50 50.00;
         mk_item_faixa "100-200 kWh" 100 0.75 75.00;
         mk_item_faixa "200-500 kWh" 50 1.00 50.00 ];
     subtotal_consumo := 175.00;
     adicional_bandeira := 0.00;
     base_impostos := 175.00;
     impostos := [ ("ICMS", 31.50); ("PIS", 2.8875); ("COFINS", 13.3175) ];
     total_impostos := 47.705000000000005;
     total_final := 222.705 |}.

(** Occurrences of a character. *)
Fixpoint count_char (c : ascii) (s : list ascii) : nat :=
  match s with
  | [] => 0
  | d :: s' => (if Ascii.eqb d c then 1 else 0) + count_char c s'
  end.

(** The subtotal that the loop of [calcular_tarifacao_por_faixas]
    accumulates, without the list. *)
Fixpoint soma_laco (fs : list faixa_tarifa) (r acc : float) : float :=
  match fs with
  | [] => acc
  | f :: resto =>
      if r <=? 0 then acc
      else
        let u := Py.min r (fim f - inicio f) in
        soma_laco resto (r - u) (if 0 <? u then acc + u * tarifa f else acc)
  end.

(** The grand total as a function of the flag rate and the subtotal. *)
Definition total_de (taxa s : float) : float :=
  let b := s + s * taxa in
  b + fold_left (fun acc v => acc + v) (map (fun i => b * snd i) IMPOSTOS) 0.0.

(** [sum(f['kwh'] for f in faixas)]: the float sum, left to right. *)
Definition soma_kwh (fs : list item_faixa) : float :=
  fold_left (fun acc f => acc + kwh f) fs 0.

(** The bill of a consumption that bills nothing. *)
Definition fatura_nula (c : float) (t : string) : fatura :=
  mk_fatura c t [] 0 0 0 [("ICMS", 0); ("PIS", 0); ("COFINS", 0)] 0 0.

(** The grand total as a function of the tax base. *)
Definition total_da_base (b : float) : float :=
  b + fold_left (fun acc v => acc + v) (map (fun i => b * snd i) IMPOSTOS) 0.0.

(** The four brackets of the table, and the line that the loop emits for
    a bracket and a quantity. *)
Definition faixa_1 : faixa_tarifa := mk_faixa_tarifa 0 100 0.50.
Definition faixa_2 : faixa_tarifa := mk_faixa_tarifa 100 200 0.75.
Definition faixa_3 : faixa_tarifa := mk_faixa_tarifa 200 500 1.00.
Definition faixa_4 : faixa_tarifa := mk_faixa_tarifa 500 infinity 1.35.

Definition item_de (f : faixa_tarifa) (u : float) : item_faixa :=
  mk_item_faixa (rotulo f) u (tarifa f) (u * tarifa f).

(* ====================================================================== *)
(** * Binary64 values: definitions *)
(* ====================================================================== *)

(** The universal statements about the program go through the value of a
    float.  A non-negative float is measured in units of [2^-2148], which
    makes every binary64 value, and every product of two of them, an
    integer; [+inf] is given the value [cap = 2^3172], just above the
    largest finite float. *)

Module B64.

Local Open Scope Z_scope.

(** State of the shift register after [k] steps on mantissa [m]. *)
Definition shr_state (m : Z) (k : Z) : shr_record :=
  Build_shr_record (m / 2 ^ k) (2 ^ k <=? 2 * (m mod 2 ^ k))
    (negb ((2 * (m mod 2 ^ k)) mod 2 ^ k =? 0)).

(** Round to nearest, ties to even, of [m / 2^n] ([0 <= m], [0 <= n]). *)
Definition rne (m n : Z) : Z :=
  let q := m / 2 ^ n in
  let r := m mod 2 ^ n in
  if (2 ^ n <? 2 * r) || ((2 ^ n =? 2 * r) && Z.odd q) then q + 1 else q.

(** What [binary_round_aux] computes on an exact positive input whose
    exponent is at or below the target exponent. *)
Definition round_result (s : bool) (m1 t : Z) : spec_float :=
  if m1 =? 0 then S754_zero s
  else if m1 =? 2 ^ 53 then
         (if t + 1 <=? 971 then S754_finite s (Z.to_pos (2 ^ 52)) (t + 1)
          else S754_infinity s)
       else (if t <=? 971 then S754_finite s (Z.to_pos m1) t else S754_infinity s).

Definition bias : Z := 2148.
Definition cap : Z := 2 ^ (1024 + bias).

(** The value of a non-negative float; [+inf] stands at [cap], above
    every finite value. *)
Definition V (x : spec_float) : Z :=
  match x with
  | S754_zero _ => 0
  | S754_finite _ m e => Z.pos m * 2 ^ (e + bias)
  | S754_infinity _ => cap
  | S754_nan => 0
  end.

(** The target exponent of a value: 53 significant bits, and no unit
    below the smallest subnormal [2^-1074]. *)
Definition tz (w : Z) : Z := Z.max (Z.log2 w + 1 - 53) 1074.

(** Rounding of a value to binary64 (to nearest, ties to even),
    saturating at [cap]. *)
Definition Rz (w : Z) : Z :=
  if w <=? 0 then 0 else Z.min (rne w (tz w) * 2 ^ tz w) cap.

(** A value is representable when it is a multiple of its target unit. *)
Definition representable (w : Z) : Prop := 0 <= w < cap /\ w mod 2 ^ tz w = 0.

(** Non-negative and not a NaN: zeros of either sign, positive finite
    values and [+inf]. *)
Definition nn_sf (x : spec_float) : bool :=
  match x with
  | S754_zero _ => true
  | S754_finite false _ _ => true
  | S754_infinity false => true
  | _ => false
  end.

(** Finite (non-negative): a zero or a positive finite value. *)
Definition fin_sf (x : spec_float) : bool :=
  match x with
  | S754_zero _ => true
  | S754_finite false _ _ => true
  | _ => false
  end.

Definition fval (x : float) : Z := V (Prim2SF x).
Definition nn (x : float) : bool := nn_sf (Prim2SF x).
Definition fin (x : float) : bool := fin_sf (Prim2SF x).

(** Not negative: a NaN, a zero, a positive value or [+inf]; this is
    [x < 0] being false. *)
Definition nneg_sf (x : spec_float) : bool :=
  match x with
  | S754_infinity true => false
  | S754_finite true _ _ => false
  | _ => true
  end.

Definition nneg (x : float) : bool := nneg_sf (Prim2SF x).

(** [is_finite] of the kernel, on the specification side. *)
Definition finite_sf (x : spec_float) : bool :=
  match x with
  | S754_zero _ | S754_finite _ _ _ => true
  | _ => false
  end.

End B64.

Import B64.

(** What the table holds: positive widths (the last one infinite) and
    positive finite rates. *)
Definition faixa_ok (f : faixa_tarifa) : Prop :=
  nn (fim f - inicio f) = true /\ (0 < fval (fim f - inicio f))%Z /\
  fin (tarifa f) = true /\ (0 < fval (tarifa f))%Z.

(** The sum of the quantities of a breakdown without rounding, in units
    of [2^-2148]. *)
Definition soma_exata (fs : list item_faixa) : Z :=
  fold_right (fun f acc => (fval (kwh f) + acc)%Z) 0%Z fs.

(** A bracket width: infinite, or a multiple of 4. *)
Definition largura_ok (f : faixa_tarifa) : Prop :=
  nn (fim f - inicio f) = true /\ (0 < fval (fim f - inicio f))%Z /\
  (fval (fim f - inicio f) = cap \/ (2 ^ (bias + 2) | fval (fim f - inicio f))%Z).

(* ====================================================================== *)
(** * Binary64 values: facts *)
(* ====================================================================== *)

Module B64Facts.

Local Open Scope Z_scope.

(** ** Shifting with round and sticky bits *)

(** [iter_pos] as [Nat.iter]. *)
Lemma iter_pos_nat {A} (f : A -> A) (p : positive) (x : A) :
  iter_pos f p x = Nat.iter (Pos.to_nat p) f x.
Proof.
  revert x; induction p as [p IH|p IH|]; intros x; cbn [iter_pos].
  - rewrite !IH, Pos2Nat.inj_xI.
    replace (S (2 * Pos.to_nat p))%nat with (Pos.to_nat p + (Pos.to_nat p + 1))%nat by lia.
    rewrite !Nat.iter_add. reflexivity.
  - rewrite !IH, Pos2Nat.inj_xO.
    replace (2 * Pos.to_nat p)%nat with (Pos.to_nat p + Pos.to_nat p)%nat by lia.
    rewrite Nat.iter_add. reflexivity.
  - reflexivity.
Qed.

Lemma shr_1_spec q r s : 0 <= q ->
  shr_1 (Build_shr_record q r s) = Build_shr_record (q / 2) (Z.odd q) (r || s).
Proof.
  intros Hq. destruct q as [|p|p]; [reflexivity| |lia].
  destruct p as [p|p|]; cbn [shr_1 Z.odd]; f_equal.
  - rewrite Pos2Z.inj_xI. apply (Z.div_unique _ 2 _ 1); lia.
  - rewrite Pos2Z.inj_xO. apply (Z.div_unique _ 2 _ 0); lia.
Qed.

Lemma shr_1_state m k : 0 <= m -> 0 <= k ->
  shr_1 (shr_state m k) = shr_state m (k + 1).
Proof.
  intros Hm Hk. unfold shr_state.
  assert (H2k : 0 < 2 ^ k) by (apply Z.pow_pos_nonneg; lia).
  assert (Hp : 2 ^ (k + 1) = 2 * 2 ^ k) by (rewrite Z.pow_add_r by lia; lia).
  pose proof (Z.div_mod m (2 ^ k) ltac:(lia)) as Hdm.
  pose proof (Z.mod_pos_bound m (2 ^ k) H2k) as Hr.
  set (q := m / 2 ^ k) in *. set (r := m mod 2 ^ k) in *.
  assert (Hq : 0 <= q) by (apply Z.div_pos; lia).
  rewrite shr_1_spec by assumption.
  pose proof (Z.div_mod q 2 ltac:(lia)) as Hq2.
  pose proof (Z.mod_pos_bound q 2 ltac:(lia)) as Hb.
  assert (Hodd : Z.odd q = (q mod 2 =? 1)).
  { rewrite Zodd_mod. reflexivity. }
  set (q' := q / 2) in *. set (b := q mod 2) in *.
  assert (Hdiv : m / 2 ^ (k + 1) = q').
  { symmetry. apply (Z.div_unique m (2 ^ (k + 1)) q' (r + b * 2 ^ k)); nia. }
  assert (Hmod : m mod 2 ^ (k + 1) = r + b * 2 ^ k).
  { symmetry. apply (Z.mod_unique m (2 ^ (k + 1)) q' (r + b * 2 ^ k)); nia. }
  rewrite Hdiv, Hmod. f_equal.
  - rewrite Hp, Hodd.
    assert (b = 0 \/ b = 1) as [->| ->] by lia.
    + symmetry. apply Z.leb_gt; lia.
    + symmetry. apply Z.leb_le; lia.
  - rewrite Hp.
    replace (2 * (r + b * 2 ^ k)) with (2 * r + b * (2 * 2 ^ k)) by lia.
    rewrite Z.mod_add by lia.
    destruct (Z.eq_dec r 0) as [Hr0|Hr0].
    + rewrite Hr0, Z.mul_0_r, !Z.mod_0_l by lia.
      replace (2 ^ k <=? 0) with false by (symmetry; apply Z.leb_gt; lia). reflexivity.
    + rewrite (Z.mod_small (2 * r) (2 * 2 ^ k)) by lia.
      replace (2 * r =? 0) with false by (symmetry; apply Z.eqb_neq; lia).
      destruct (Z.leb_spec (2 ^ k) (2 * r)); [reflexivity|].
      rewrite Z.mod_small by lia.
      replace (2 * r =? 0) with false by (symmetry; apply Z.eqb_neq; lia). reflexivity.
Qed.

Lemma shr_state_0 m : shr_state m 0 = Build_shr_record m false false.
Proof.
  unfold shr_state. rewrite Z.pow_0_r, Z.div_1_r, Z.mod_1_r. reflexivity.
Qed.

Lemma iter_shr_1 m (n : nat) : 0 <= m ->
  Nat.iter n shr_1 (Build_shr_record m false false) = shr_state m (Z.of_nat n).
Proof.
  intros Hm. induction n as [|n IH].
  - symmetry. apply shr_state_0.
  - rewrite Nat.iter_succ, IH, shr_1_state by lia. f_equal. lia.
Qed.

Lemma round_shr_state m n : 0 <= m -> 0 <= n ->
  round_nearest_even (shr_m (shr_state m n)) (loc_of_shr_record (shr_state m n))
  = rne m n.
Proof.
  intros Hm Hn. unfold shr_state, rne.
  assert (H2n : 0 < 2 ^ n) by (apply Z.pow_pos_nonneg; lia).
  pose proof (Z.mod_pos_bound m (2 ^ n) H2n) as Hr.
  set (q := m / 2 ^ n). set (r := m mod 2 ^ n) in *.
  cbn [shr_m loc_of_shr_record].
  assert (Hr2 : 0 <= 2 * r < 2 * 2 ^ n) by lia.
  set (r2 := 2 * r) in *. clearbody r2.
  destruct (Z.leb_spec (2 ^ n) r2) as [Hle|Hlt].
  - destruct (Z.eq_dec (2 ^ n) r2) as [He|Hne].
    + replace (r2 mod 2 ^ n) with 0 by (rewrite <- He, Z.mod_same; lia).
      replace (2 ^ n <? r2) with false by (symmetry; apply Z.ltb_ge; lia).
      replace (2 ^ n =? r2) with true by (symmetry; apply Z.eqb_eq; lia).
      cbn. rewrite <- Z.negb_odd. destruct (Z.odd q); reflexivity.
    + replace (2 ^ n <? r2) with true by (symmetry; apply Z.ltb_lt; lia).
      replace (r2 mod 2 ^ n) with (r2 - 2 ^ n).
      2:{ apply (Z.mod_unique _ _ 1); lia. }
      replace (r2 - 2 ^ n =? 0) with false by (symmetry; apply Z.eqb_neq; lia).
      reflexivity.
  - replace (2 ^ n <? r2) with false by (symmetry; apply Z.ltb_ge; lia).
    replace (2 ^ n =? r2) with false by (symmetry; apply Z.eqb_neq; lia).
    rewrite Z.mod_small by lia. cbn.
    destruct (Z.eqb_spec (r2) 0); reflexivity.
Qed.

(** [shr] from an exact record: what it computes. *)
Lemma shr_exact m e n : 0 <= m ->
  shr (Build_shr_record m false false) e n
  = if 0 <? n then (shr_state m n, e + n) else (Build_shr_record m false false, e).
Proof.
  intros Hm. destruct n as [|p|p]; try reflexivity.
  cbn [shr]. replace (0 <? Z.pos p) with true by reflexivity.
  rewrite iter_pos_nat, iter_shr_1 by assumption.
  rewrite positive_nat_Z. reflexivity.
Qed.

Lemma shr_exact_nonneg m e n : 0 <= m -> 0 <= n ->
  shr (Build_shr_record m false false) e n = (shr_state m n, e + n).
Proof.
  intros Hm Hn. rewrite shr_exact by assumption.
  destruct (Z.ltb_spec 0 n); [reflexivity|].
  replace n with 0 by lia. rewrite shr_state_0, Z.add_0_r. reflexivity.
Qed.

Lemma shr_exact_nonpos m e n : n <= 0 ->
  shr (Build_shr_record m false false) e n = (Build_shr_record m false false, e).
Proof. intros Hn. destruct n; try reflexivity; lia. Qed.

Lemma fexp_eq x : fexp prec emax x = Z.max (x - 53) (-1074).
Proof. reflexivity. Qed.

Lemma digits2_log2 m : Z.pos (digits2_pos m) = Z.log2 (Z.pos m) + 1.
Proof.
  induction m as [m IH|m IH|]; cbn [digits2_pos]; try reflexivity.
  - rewrite Pos2Z.inj_succ, IH. rewrite Pos2Z.inj_xI.
    rewrite (Z.log2_succ_double (Z.pos m)) by lia. lia.
  - rewrite Pos2Z.inj_succ, IH. rewrite Pos2Z.inj_xO.
    rewrite (Z.log2_double (Z.pos m)) by lia. lia.
Qed.

Lemma Zdigits2_log2 m : 0 < m -> Zdigits2 m = Z.log2 m + 1.
Proof. destruct m; try lia. intros _. apply digits2_log2. Qed.

Lemma log2_bounds m : 0 < m -> 2 ^ Z.log2 m <= m < 2 ^ (Z.log2 m + 1).
Proof. intros H. pose proof (Z.log2_spec m H). rewrite <- Z.add_1_r in *. lia. Qed.

Lemma rne_bounds m n : 0 <= m -> 0 <= n ->
  m / 2 ^ n <= rne m n <= m / 2 ^ n + 1.
Proof.
  intros. unfold rne.
  destruct ((2 ^ n <? 2 * (m mod 2 ^ n)) || ((2 ^ n =? 2 * (m mod 2 ^ n)) && Z.odd (m / 2 ^ n))); lia.
Qed.

Lemma rne_0 m : rne m 0 = m.
Proof.
  unfold rne. rewrite Z.pow_0_r, Z.div_1_r, Z.mod_1_r. reflexivity.
Qed.

Lemma pow2_pos k : 0 <= k -> 0 < 2 ^ k.
Proof. intros; apply Z.pow_pos_nonneg; lia. Qed.

Lemma pow2_le a b : 0 <= a <= b -> 2 ^ a <= 2 ^ b.
Proof. intros; apply Z.pow_le_mono_r; lia. Qed.

Lemma pow2_lt a b : 0 <= a < b -> 2 ^ a < 2 ^ b.
Proof. intros; apply Z.pow_lt_mono_r; lia. Qed.

(** The first rounding stays within [prec] bits (plus the carry). *)
Lemma rne_le_prec m n d : 0 < m -> 0 <= n -> m < 2 ^ d -> d <= n + 53 ->
  0 <= rne m n <= 2 ^ 53.
Proof.
  intros Hm Hn Hd Hdn.
  pose proof (rne_bounds m n ltac:(lia) Hn) as [Hlo Hhi].
  assert (0 <= m / 2 ^ n) by (apply Z.div_pos; [lia|apply pow2_pos; lia]).
  split; [lia|].
  assert (m / 2 ^ n < 2 ^ 53); [|lia].
  apply Z.div_lt_upper_bound; [apply pow2_pos; lia|].
  rewrite <- Z.pow_add_r by lia.
  assert (0 <= d \/ d < 0) as [Hd0|Hd0] by lia.
  - pose proof (pow2_le d (n + 53) ltac:(lia)). lia.
  - rewrite (Z.pow_neg_r 2 d) in Hd by lia. lia.
Qed.

Lemma binary_round_aux_exact s (m : positive) e :
  let t := fexp prec emax (Z.pos (digits2_pos m) + e) in
  e <= t ->
  binary_round_aux prec emax s (Z.pos m) e loc_Exact
  = round_result s (rne (Z.pos m) (t - e)) t.
Proof.
  intros t Het. unfold binary_round_aux, shr_fexp.
  cbn [shr_record_of_loc Zdigits2]. fold t.
  rewrite shr_exact_nonneg by lia.
  rewrite round_shr_state by lia.
  replace (e + (t - e)) with t by lia.
  set (m1 := rne (Z.pos m) (t - e)).
  assert (Ht : -1074 <= t) by (unfold t; rewrite fexp_eq; lia).
  assert (Hm1 : 0 <= m1 <= 2 ^ 53).
  { apply (rne_le_prec _ _ (Z.log2 (Z.pos m) + 1)); try lia.
    - apply log2_bounds; lia.
    - unfold t. rewrite fexp_eq, digits2_log2. lia. }
  unfold round_result.
  destruct (Z.eqb_spec m1 0) as [H0|H0].
  - rewrite H0. cbn [Zdigits2]. rewrite shr_exact_nonpos; [reflexivity|].
    rewrite fexp_eq. lia.
  - destruct (Z.eqb_spec m1 (2 ^ 53)) as [H53|H53].
    + rewrite H53.
      replace (fexp prec emax (Zdigits2 (2 ^ 53) + t) - t) with 1.
      2:{ rewrite fexp_eq. change (Zdigits2 (2 ^ 53)) with 54. lia. }
      rewrite shr_exact_nonneg by lia.
      cbn [shr_state shr_m]. change (2 ^ 53 / 2 ^ 1) with (Z.pos (Z.to_pos (2 ^ 52))).
      cbv iota beta. reflexivity.
    + assert (Hd : Zdigits2 m1 <= 53).
      { rewrite Zdigits2_log2 by lia.
        assert (Z.log2 m1 < 53); [|lia].
        apply Z.log2_lt_pow2; lia. }
      rewrite shr_exact_nonpos by (rewrite fexp_eq; lia).
      cbn [shr_m]. destruct m1 as [|p|p]; try lia. reflexivity.
Qed.

(** ** Values, in units of [2^-2148] *)

Lemma rne_scale m n j : 0 <= m -> 0 <= n -> 0 <= j ->
  rne (m * 2 ^ j) (n + j) = rne m n.
Proof.
  intros Hm Hn Hj. unfold rne.
  assert (Hpj := pow2_pos j Hj). assert (Hpn := pow2_pos n Hn).
  rewrite Z.pow_add_r by lia.
  rewrite Z.div_mul_cancel_r by lia.
  rewrite Z.mul_mod_distr_r by lia.
  set (q := m / 2 ^ n). set (r := m mod 2 ^ n).
  replace (2 ^ n * 2 ^ j <? 2 * (r * 2 ^ j)) with (2 ^ n <? 2 * r).
  2:{ destruct (Z.ltb_spec (2 ^ n) (2 * r));
      symmetry; [apply Z.ltb_lt|apply Z.ltb_ge]; nia. }
  replace (2 ^ n * 2 ^ j =? 2 * (r * 2 ^ j)) with (2 ^ n =? 2 * r).
  2:{ destruct (Z.eqb_spec (2 ^ n) (2 * r));
      symmetry; [apply Z.eqb_eq|apply Z.eqb_neq]; nia. }
  reflexivity.
Qed.

Lemma log2_shift m j : 0 < m -> 0 <= j -> Z.log2 (m * 2 ^ j) = Z.log2 m + j.
Proof.
  intros. rewrite <- Z.shiftl_mul_pow2 by lia. apply Z.log2_shiftl; lia.
Qed.

Lemma cap_eq : cap = 2 ^ 3172.
Proof. reflexivity. Qed.

Lemma V_round_result s (m : positive) e :
  let t := fexp prec emax (Z.pos (digits2_pos m) + e) in
  - bias <= e -> e <= t ->
  V (round_result s (rne (Z.pos m) (t - e)) t) = Rz (Z.pos m * 2 ^ (e + bias)).
Proof.
  intros t Hb Het. unfold bias in *.
  assert (Ht : t = Z.max (Z.log2 (Z.pos m) + 1 + e - 53) (-1074)).
  { unfold t. rewrite fexp_eq, digits2_log2. reflexivity. }
  assert (Hpe := pow2_pos (e + 2148) ltac:(lia)).
  unfold Rz, tz.
  replace (Z.pos m * 2 ^ (e + 2148) <=? 0) with false by (symmetry; apply Z.leb_gt; nia).
  rewrite log2_shift by lia.
  replace (Z.max (Z.log2 (Z.pos m) + (e + 2148) + 1 - 53) 1074) with ((t - e) + (e + 2148)) by lia.
  rewrite rne_scale by lia.
  set (m1 := rne (Z.pos m) (t - e)).
  replace (t - e + (e + 2148)) with (t + 2148) by lia.
  assert (Hm1 : 0 <= m1 <= 2 ^ 53).
  { apply (rne_le_prec _ _ (Z.log2 (Z.pos m) + 1)); try lia.
    apply log2_bounds; lia. }
  assert (Hpt := pow2_pos (t + 2148) ltac:(lia)).
  unfold round_result. rewrite cap_eq.
  destruct (Z.eqb_spec m1 0) as [H0|H0].
  - rewrite H0. cbn [V]. rewrite Z.mul_0_l. symmetry. apply Z.min_l.
    apply Z.lt_le_incl, pow2_pos; lia.
  - destruct (Z.eqb_spec m1 (2 ^ 53)) as [H53|H53].
    + rewrite H53, <- Z.pow_add_r by lia.
      destruct (Z.leb_spec (t + 1) 971).
      * cbn [V]. unfold bias. rewrite Z2Pos.id by (apply pow2_pos; lia).
        rewrite <- Z.pow_add_r by lia.
        replace (52 + (t + 1 + 2148)) with (53 + (t + 2148)) by lia.
        symmetry. apply Z.min_l. apply pow2_le. lia.
      * cbn [V]. rewrite cap_eq. symmetry. apply Z.min_r. apply pow2_le. lia.
    + destruct (Z.leb_spec t 971).
      * cbn [V]. unfold bias. rewrite Z2Pos.id by lia.
        symmetry. apply Z.min_l.
        replace 3172 with (53 + 3119) by lia. rewrite (Z.pow_add_r 2 53 3119) by lia.
        pose proof (pow2_le (t + 2148) 3119 ltac:(lia)).
        apply Z.mul_le_mono_nonneg; lia.
      * cbn [V]. rewrite cap_eq. symmetry. apply Z.min_r.
        assert (Hn : t - e = Z.log2 (Z.pos m) + 1 - 53) by lia.
        assert (H52 : 2 ^ 52 <= m1).
        { pose proof (rne_bounds (Z.pos m) (t - e) ltac:(lia) ltac:(lia)) as [Hlo _].
          fold m1 in Hlo.
          assert (2 ^ 52 <= Z.pos m / 2 ^ (t - e)); [|lia].
          apply Z.div_le_lower_bound; [apply pow2_pos; lia|].
          rewrite <- Z.pow_add_r by lia.
          replace (t - e + 52) with (Z.log2 (Z.pos m)) by lia.
          apply log2_bounds; lia. }
        replace 3172 with (52 + 3120) by lia. rewrite (Z.pow_add_r 2 52 3120) by lia.
        pose proof (pow2_le 3120 (t + 2148) ltac:(lia)).
        apply Z.mul_le_mono_nonneg; lia.
Qed.

(** ** Properties of [rne] and [Rz] *)

Lemma rne_upper m n k : 0 <= m -> 0 <= n -> m <= k * 2 ^ n -> rne m n <= k.
Proof.
  intros Hm Hn Hk. assert (Hp := pow2_pos n Hn).
  destruct (Z.eq_dec m (k * 2 ^ n)) as [->|Hne].
  - unfold rne. rewrite Z.div_mul, Z.mod_mul by lia.
    replace (2 ^ n <? 2 * 0) with false by (symmetry; apply Z.ltb_ge; lia).
    replace (2 ^ n =? 2 * 0) with false by (symmetry; apply Z.eqb_neq; lia).
    cbn [orb andb]. lia.
  - pose proof (rne_bounds m n Hm Hn).
    assert (m / 2 ^ n < k); [|lia].
    apply Z.div_lt_upper_bound; lia.
Qed.

Lemma rne_lower m n k : 0 <= m -> 0 <= n -> k * 2 ^ n <= m -> k <= rne m n.
Proof.
  intros Hm Hn Hk. assert (Hp := pow2_pos n Hn).
  pose proof (rne_bounds m n Hm Hn).
  assert (k <= m / 2 ^ n); [|lia].
  apply Z.div_le_lower_bound; lia.
Qed.

Lemma rne_mono m1 m2 n : 0 <= m1 <= m2 -> 0 <= n -> rne m1 n <= rne m2 n.
Proof.
  intros Hm Hn. assert (Hp := pow2_pos n Hn).
  pose proof (rne_bounds m1 n ltac:(lia) Hn) as B1.
  pose proof (rne_bounds m2 n ltac:(lia) Hn) as B2.
  assert (Hq : m1 / 2 ^ n <= m2 / 2 ^ n) by (apply Z.div_le_mono; lia).
  destruct (Z.eq_dec (m1 / 2 ^ n) (m2 / 2 ^ n)) as [He|Hne]; [|lia].
  pose proof (Z.div_mod m1 (2 ^ n) ltac:(lia)) as D1.
  pose proof (Z.div_mod m2 (2 ^ n) ltac:(lia)) as D2.
  unfold rne. rewrite <- He in *.
  set (q := m1 / 2 ^ n) in *. set (r1 := m1 mod 2 ^ n) in *. set (r2 := m2 mod 2 ^ n) in *.
  assert (Hr : r1 <= r2) by nia.
  destruct (Z.ltb_spec (2 ^ n) (2 * r1)).
  - replace (2 ^ n <? 2 * r2) with true by (symmetry; apply Z.ltb_lt; lia). cbn [orb andb]. lia.
  - destruct (Z.eqb_spec (2 ^ n) (2 * r1)).
    + destruct (Z.odd q); cbn [orb andb].
      * destruct (Z.ltb_spec (2 ^ n) (2 * r2)); cbn [orb andb]; [lia|].
        replace (2 ^ n =? 2 * r2) with true by (symmetry; apply Z.eqb_eq; lia). cbn [orb andb]. lia.
      * destruct ((2 ^ n <? 2 * r2) || ((2 ^ n =? 2 * r2) && false)); lia.
    + cbn [orb andb]. destruct ((2 ^ n <? 2 * r2) || ((2 ^ n =? 2 * r2) && Z.odd q)); lia.
Qed.

Lemma Rz_pos w : 0 < w -> Rz w = Z.min (rne w (tz w) * 2 ^ tz w) cap.
Proof.
  intros H. unfold Rz. replace (w <=? 0) with false by (symmetry; apply Z.leb_gt; lia).
  reflexivity.
Qed.

Lemma Rz_nonpos w : w <= 0 -> Rz w = 0.
Proof.
  intros H. unfold Rz. replace (w <=? 0) with true by (symmetry; apply Z.leb_le; lia).
  reflexivity.
Qed.

Lemma tz_ge w : 1074 <= tz w.
Proof. unfold tz. lia. Qed.

Lemma tz_mono w1 w2 : 0 < w1 <= w2 -> tz w1 <= tz w2.
Proof.
  intros H. unfold tz. pose proof (Z.log2_le_mono w1 w2 ltac:(lia)). lia.
Qed.

Lemma cap_pos : 0 < cap.
Proof. rewrite cap_eq. apply pow2_pos. lia. Qed.

Lemma Rz_nonneg w : 0 <= Rz w.
Proof.
  destruct (Z.le_gt_cases w 0) as [H|H].
  - rewrite Rz_nonpos by assumption. lia.
  - rewrite Rz_pos by assumption. pose proof cap_pos.
    pose proof (tz_ge w).
    pose proof (rne_lower w (tz w) 0 ltac:(lia) ltac:(lia) ltac:(lia)).
    pose proof (pow2_pos (tz w) ltac:(lia)).
    apply Z.min_glb; [nia|lia].
Qed.

Lemma Rz_le_cap w : Rz w <= cap.
Proof.
  destruct (Z.le_gt_cases w 0) as [H|H].
  - rewrite Rz_nonpos by assumption. pose proof cap_pos. lia.
  - rewrite Rz_pos by assumption. apply Z.le_min_r.
Qed.

(** Below: the rounded value is at least [2^log2 w] when [w] is normal. *)
Lemma round_lower w : 0 < w -> 1074 < tz w ->
  2 ^ Z.log2 w <= rne w (tz w) * 2 ^ tz w.
Proof.
  intros Hw Ht. assert (Htz : tz w = Z.log2 w - 52) by (unfold tz in *; lia).
  pose proof (log2_bounds w Hw) as [Hlo _].
  pose proof (pow2_pos (tz w) ltac:(lia)).
  pose proof (rne_lower w (tz w) (2 ^ 52) ltac:(lia) ltac:(lia)) as Hl.
  replace (2 ^ Z.log2 w) with (2 ^ 52 * 2 ^ tz w) in *.
  2:{ rewrite <- Z.pow_add_r by lia. f_equal. lia. }
  specialize (Hl Hlo). nia.
Qed.

(** Above: the rounded value is at most the next power of two (or the
    smallest subnormal step). *)
Lemma round_upper w : 0 < w ->
  rne w (tz w) * 2 ^ tz w <= Z.max (2 ^ (Z.log2 w + 1)) (2 ^ tz w).
Proof.
  intros Hw. pose proof (tz_ge w) as Ht.
  pose proof (log2_bounds w Hw) as [_ Hhi].
  pose proof (Z.log2_nonneg w).
  pose proof (pow2_pos (tz w) ltac:(lia)).
  destruct (Z.le_gt_cases (tz w) (Z.log2 w + 1)) as [Hle|Hgt].
  - pose proof (rne_upper w (tz w) (2 ^ (Z.log2 w + 1 - tz w)) ltac:(lia) ltac:(lia)) as Hu.
    replace (2 ^ (Z.log2 w + 1 - tz w) * 2 ^ tz w) with (2 ^ (Z.log2 w + 1)) in Hu.
    2:{ rewrite <- Z.pow_add_r by lia. f_equal. lia. }
    specialize (Hu ltac:(lia)).
    assert (rne w (tz w) * 2 ^ tz w <= 2 ^ (Z.log2 w + 1 - tz w) * 2 ^ tz w) by nia.
    replace (2 ^ (Z.log2 w + 1 - tz w) * 2 ^ tz w) with (2 ^ (Z.log2 w + 1)) in *.
    2:{ rewrite <- Z.pow_add_r by lia. f_equal. lia. }
    lia.
  - pose proof (pow2_lt (Z.log2 w + 1) (tz w) ltac:(lia)).
    pose proof (rne_upper w (tz w) 1 ltac:(lia) ltac:(lia) ltac:(lia)). nia.
Qed.

Theorem Rz_mono w1 w2 : w1 <= w2 -> Rz w1 <= Rz w2.
Proof.
  intros H. destruct (Z.le_gt_cases w1 0) as [H1|H1].
  - rewrite (Rz_nonpos w1) by assumption. apply Rz_nonneg.
  - rewrite !Rz_pos by lia. apply Z.min_le_compat_r.
    pose proof (tz_mono w1 w2 ltac:(lia)) as Ht.
    pose proof (tz_ge w1). pose proof (tz_ge w2).
    destruct (Z.eq_dec (tz w1) (tz w2)) as [He|Hne].
    + rewrite He. pose proof (rne_mono w1 w2 (tz w2) ltac:(lia) ltac:(lia)).
      pose proof (pow2_pos (tz w2) ltac:(lia)). nia.
    + pose proof (round_upper w1 H1) as Hu.
      pose proof (round_lower w2 ltac:(lia) ltac:(lia)) as Hl.
      assert (Hlog : Z.log2 w1 + 1 <= Z.log2 w2) by (unfold tz in *; lia).
      pose proof (Z.log2_nonneg w1).
      pose proof (pow2_le (Z.log2 w1 + 1) (Z.log2 w2) ltac:(lia)).
      pose proof (pow2_le (tz w1) (Z.log2 w2) ltac:(unfold tz in *; lia)).
      lia.
Qed.

Theorem Rz_exact w : representable w -> Rz w = w.
Proof.
  intros [[H0 Hc] Hm]. destruct (Z.eq_dec w 0) as [->|Hne].
  - apply Rz_nonpos. lia.
  - rewrite Rz_pos by lia. pose proof (tz_ge w).
    pose proof (pow2_pos (tz w) ltac:(lia)) as Hp.
    apply Z.mod_divide in Hm; [|lia]. destruct Hm as [k Hk].
    assert (rne w (tz w) = k).
    { apply Z.le_antisymm.
      - apply rne_upper; lia.
      - apply rne_lower; lia. }
    rewrite H1, <- Hk. apply Z.min_l. lia.
Qed.

Lemma Rz_sat w : cap <= w -> Rz w = cap.
Proof.
  intros H. pose proof cap_pos as Hc. rewrite Rz_pos by lia.
  apply Z.min_r. rewrite cap_eq in *.
  assert (Hl : 3172 <= Z.log2 w) by (apply Z.log2_le_pow2; lia).
  pose proof (round_lower w ltac:(lia) ltac:(unfold tz; lia)).
  pose proof (pow2_le 3172 (Z.log2 w) ltac:(lia)). lia.
Qed.

(** ** Valid binary64 values *)

Lemma valid_finite s m e : valid_binary (S754_finite s m e) = true ->
  e = Z.max (Z.log2 (Z.pos m) + 1 + e - 53) (-1074) /\ e <= 971.
Proof.
  cbn [SpecFloat.valid_binary]. unfold bounded, canonical_mantissa.
  rewrite andb_true_iff, Z.eqb_eq, Z.leb_le, fexp_eq, digits2_log2.
  change (emax - prec) with 971. lia.
Qed.

Lemma tz_V_finite s m e : valid_binary (S754_finite s m e) = true ->
  tz (Z.pos m * 2 ^ (e + bias)) = e + bias.
Proof.
  intros Hv. apply valid_finite in Hv. destruct Hv as [He _].
  unfold tz, bias. rewrite log2_shift by lia. lia.
Qed.

Lemma V_finite_bounds s m e : valid_binary (S754_finite s m e) = true ->
  0 < Z.pos m * 2 ^ (e + bias) < cap.
Proof.
  intros Hv. apply valid_finite in Hv. destruct Hv as [He Hle].
  unfold bias. pose proof (pow2_pos (e + 2148) ltac:(lia)).
  split; [nia|].
  assert (Hm : Z.pos m < 2 ^ 53).
  { pose proof (log2_bounds (Z.pos m) ltac:(lia)) as [_ Hhi].
    pose proof (Z.log2_nonneg (Z.pos m)).
    pose proof (pow2_le (Z.log2 (Z.pos m) + 1) 53 ltac:(lia)). lia. }
  rewrite cap_eq. replace 3172 with (53 + 3119) by lia.
  rewrite (Z.pow_add_r 2 53 3119) by lia.
  pose proof (pow2_le (e + 2148) 3119 ltac:(lia)).
  apply Z.le_lt_trans with (Z.pos m * 2 ^ 3119).
  - apply Z.mul_le_mono_nonneg_l; lia.
  - apply Z.mul_lt_mono_pos_r; [apply pow2_pos; lia|lia].
Qed.

Lemma valid_lt s1 m1 e1 s2 m2 e2 :
  valid_binary (S754_finite s1 m1 e1) = true ->
  valid_binary (S754_finite s2 m2 e2) = true ->
  e1 < e2 ->
  Z.pos m1 * 2 ^ (e1 + bias) < Z.pos m2 * 2 ^ (e2 + bias).
Proof.
  intros V1 V2 Hlt. apply valid_finite in V1, V2.
  destruct V1 as [H1 _], V2 as [H2 _]. unfold bias.
  pose proof (log2_bounds (Z.pos m1) ltac:(lia)) as [_ Hhi].
  pose proof (log2_bounds (Z.pos m2) ltac:(lia)) as [Hlo _].
  pose proof (Z.log2_nonneg (Z.pos m1)).
  assert (Hl2 : Z.log2 (Z.pos m2) = 52) by lia. rewrite Hl2 in Hlo.
  pose proof (pow2_le (Z.log2 (Z.pos m1) + 1) 53 ltac:(lia)).
  pose proof (pow2_pos (e1 + 2148) ltac:(lia)).
  pose proof (pow2_pos (e2 + 2148) ltac:(lia)).
  apply Z.lt_le_trans with (2 ^ 53 * 2 ^ (e1 + 2148)).
  - apply Z.mul_lt_mono_pos_r; lia.
  - apply Z.le_trans with (2 ^ 52 * 2 ^ (e2 + 2148)).
    + rewrite <- !Z.pow_add_r by lia. apply pow2_le. lia.
    + apply Z.mul_le_mono_nonneg_r; lia.
Qed.

Theorem compare_V x y :
  valid_binary x = true -> valid_binary y = true ->
  nn_sf x = true -> nn_sf y = true ->
  SFcompare x y = Some (V x ?= V y).
Proof.
  intros Vx Vy Nx Ny. pose proof cap_pos as Hc.
  destruct x as [sx|[|]| |[|] mx ex]; try discriminate;
  destruct y as [sy|[|]| |[|] my ey]; try discriminate;
  try pose proof (V_finite_bounds _ _ _ Vx) as Bx;
  try pose proof (V_finite_bounds _ _ _ Vy) as By;
  cbn [SFcompare V]; f_equal;
  try (symmetry;
       first [ apply Z.compare_eq_iff; reflexivity
             | apply Z.compare_lt_iff; lia
             | apply Z.compare_gt_iff; lia ]).
  destruct (Z.compare_spec ex ey) as [He|He|He].
  - subst ey. change (Pos.compare_cont Eq mx my) with (Z.pos mx ?= Z.pos my).
    assert (0 < 2 ^ (ex + bias)).
    { apply valid_finite in Vx. apply pow2_pos. unfold bias. lia. }
    destruct (Z.compare_spec (Z.pos mx) (Z.pos my)) as [Hm|Hm|Hm]; symmetry.
    + apply Z.compare_eq_iff. rewrite Hm. reflexivity.
    + apply Z.compare_lt_iff. nia.
    + apply Z.compare_gt_iff. nia.
  - symmetry. apply Z.compare_lt_iff. apply (valid_lt _ _ _ _ _ _ Vx Vy He).
  - symmetry. apply Z.compare_gt_iff. apply (valid_lt _ _ _ _ _ _ Vy Vx He).
Qed.

Lemma SFleb_V x y :
  valid_binary x = true -> valid_binary y = true ->
  nn_sf x = true -> nn_sf y = true ->
  SFleb x y = (V x <=? V y).
Proof.
  intros. unfold SFleb. rewrite compare_V by assumption.
  unfold Z.leb. destruct (V x ?= V y); reflexivity.
Qed.

Lemma SFltb_V x y :
  valid_binary x = true -> valid_binary y = true ->
  nn_sf x = true -> nn_sf y = true ->
  SFltb x y = (V x <? V y).
Proof.
  intros. unfold SFltb. rewrite compare_V by assumption.
  unfold Z.ltb. destruct (V x ?= V y); reflexivity.
Qed.

Lemma SFeqb_V x y :
  valid_binary x = true -> valid_binary y = true ->
  nn_sf x = true -> nn_sf y = true ->
  SFeqb x y = (V x =? V y).
Proof.
  intros. unfold SFeqb. rewrite compare_V by assumption.
  rewrite <- Z.eqb_compare. reflexivity.
Qed.

(** ** The operations on non-negative values *)

Lemma pos_iter_xO m d : Z.pos (Pos.iter xO m d) = Z.pos m * 2 ^ Z.pos d.
Proof.
  induction d as [|d IH] using Pos.peano_ind.
  - cbn [Pos.iter]. rewrite Pos2Z.inj_xO. change (2 ^ 1) with 2. lia.
  - rewrite Pos.iter_succ, Pos2Z.inj_xO, IH, Pos2Z.inj_succ, Z.pow_succ_r by lia. lia.
Qed.

Lemma shl_align_spec mx ex ex' :
  snd (shl_align mx ex ex') = Z.min ex ex' /\
  Z.pos (fst (shl_align mx ex ex')) = Z.pos mx * 2 ^ (ex - Z.min ex ex').
Proof.
  unfold shl_align. destruct (ex' - ex) as [|d|d] eqn:Hd; cbn [fst snd].
  - replace (Z.min ex ex') with ex by lia. rewrite Z.sub_diag. lia.
  - replace (Z.min ex ex') with ex by lia. rewrite Z.sub_diag. lia.
  - replace (Z.min ex ex') with ex' by lia. split; [reflexivity|].
    rewrite pos_iter_xO. f_equal. f_equal. lia.
Qed.

Lemma nn_round_result m1 t : nn_sf (round_result false m1 t) = true.
Proof.
  unfold round_result.
  destruct (m1 =? 0); [reflexivity|].
  destruct (m1 =? 2 ^ 53); [destruct (t + 1 <=? 971)|destruct (t <=? 971)]; reflexivity.
Qed.

Theorem binary_round_V (m : positive) e : - bias <= e ->
  nn_sf (binary_round prec emax false m e) = true /\
  V (binary_round prec emax false m e) = Rz (Z.pos m * 2 ^ (e + bias)).
Proof.
  intros Hb. unfold binary_round.
  set (t0 := fexp prec emax (Z.pos (digits2_pos m) + e)).
  pose proof (shl_align_spec m e t0) as [Hez Hmz].
  destruct (shl_align m e t0) as [mz ez]. cbn [fst snd] in *.
  assert (Ht0 : -1074 <= t0) by (unfold t0; rewrite fexp_eq; lia).
  assert (Hd : Z.pos (digits2_pos mz) + ez = Z.pos (digits2_pos m) + e).
  { rewrite !digits2_log2, Hmz, log2_shift by lia. lia. }
  assert (Hpre : ez <= fexp prec emax (Z.pos (digits2_pos mz) + ez)).
  { rewrite Hd. fold t0. lia. }
  rewrite binary_round_aux_exact by assumption.
  split; [apply nn_round_result|].
  rewrite V_round_result by (unfold bias in *; lia).
  f_equal. rewrite Hmz, <- Z.mul_assoc, <- Z.pow_add_r by (unfold bias in *; lia).
  f_equal. f_equal. lia.
Qed.

Lemma fin_nn x : fin_sf x = true -> nn_sf x = true.
Proof. destruct x as [s|s| |[|] m e]; try discriminate; reflexivity. Qed.

Lemma fin_V x : valid_binary x = true -> nn_sf x = true ->
  fin_sf x = (V x <? cap).
Proof.
  intros Hv Hn. pose proof cap_pos.
  destruct x as [s|[|]| |[|] m e]; try discriminate; cbn [fin_sf V]; symmetry.
  - apply Z.ltb_lt. lia.
  - apply Z.ltb_ge. lia.
  - apply Z.ltb_lt. apply (V_finite_bounds _ _ _ Hv).
Qed.

Lemma V_representable x : valid_binary x = true -> fin_sf x = true ->
  representable (V x).
Proof.
  intros Hv Hf. pose proof cap_pos.
  destruct x as [s|[|]| |[|] m e]; try discriminate; cbn [V].
  - split; [lia|]. apply Z.mod_0_l. apply Z.pow_nonzero; [lia|]. pose proof (tz_ge 0). lia.
  - split.
    + pose proof (V_finite_bounds _ _ _ Hv). lia.
    + rewrite (tz_V_finite _ _ _ Hv). apply Z.mod_mul.
      apply Z.pow_nonzero; [lia|]. apply valid_finite in Hv. unfold bias. lia.
Qed.

Theorem SFmul_V x y :
  valid_binary x = true -> valid_binary y = true ->
  fin_sf x = true -> fin_sf y = true ->
  nn_sf (SF64mul x y) = true /\
  V (SF64mul x y) = Rz (V x * V y / 2 ^ bias).
Proof.
  intros Vx Vy Fx Fy.
  destruct x as [sx|[|]| |[|] mx ex]; try discriminate;
  destruct y as [sy|[|]| |[|] my ey]; try discriminate;
  unfold SF64mul; cbn [SFmul V xorb];
  rewrite ?Z.mul_0_l, ?Z.mul_0_r, ?Z.div_0_l by (apply Z.pow_nonzero; unfold bias; lia);
  try (split; [reflexivity|rewrite Rz_nonpos by lia; reflexivity]).
  pose proof (valid_finite _ _ _ Vx) as [Hx _].
  pose proof (valid_finite _ _ _ Vy) as [Hy _].
  pose proof (Z.log2_mul_below (Z.pos mx) (Z.pos my) ltac:(lia) ltac:(lia)) as Hl.
  pose proof (Z.log2_nonneg (Z.pos mx)). pose proof (Z.log2_nonneg (Z.pos my)).
  assert (Hpre : ex + ey <= fexp prec emax (Z.pos (digits2_pos (mx * my)) + (ex + ey))).
  { rewrite fexp_eq, digits2_log2, Pos2Z.inj_mul. lia. }
  rewrite binary_round_aux_exact by assumption.
  split; [apply nn_round_result|].
  rewrite V_round_result by (unfold bias; lia).
  f_equal. rewrite Pos2Z.inj_mul. unfold bias.
  replace (Z.pos mx * 2 ^ (ex + 2148) * (Z.pos my * 2 ^ (ey + 2148)))
    with (Z.pos mx * Z.pos my * 2 ^ (ex + ey + 2148) * 2 ^ 2148).
  - rewrite Z.div_mul by (apply Z.pow_nonzero; lia). reflexivity.
  - replace (ex + ey + 2148) with ((ex + 2148) + ey) by lia.
    replace (Z.pos mx * Z.pos my * 2 ^ (ex + 2148 + ey) * 2 ^ 2148)
      with (Z.pos mx * Z.pos my * (2 ^ (ex + 2148 + ey) * 2 ^ 2148)) by ring.
    rewrite <- Z.pow_add_r by lia.
    replace (ex + 2148 + ey + 2148) with ((ex + 2148) + (ey + 2148)) by lia.
    rewrite Z.pow_add_r by lia. ring.
Qed.

Lemma aligned_value m e ez : ez <= e -> - bias <= ez ->
  Z.pos (fst (shl_align m e ez)) * 2 ^ (ez + bias) = Z.pos m * 2 ^ (e + bias).
Proof.
  intros He Hb. pose proof (shl_align_spec m e ez) as [_ Hm].
  rewrite Hm. replace (Z.min e ez) with ez by lia.
  rewrite <- Z.mul_assoc, <- Z.pow_add_r by (unfold bias in *; lia).
  f_equal. f_equal. lia.
Qed.

Theorem SFadd_V x y :
  valid_binary x = true -> valid_binary y = true ->
  nn_sf x = true -> nn_sf y = true ->
  nn_sf (SF64add x y) = true /\ V (SF64add x y) = Rz (V x + V y).
Proof.
  intros Vx Vy Nx Ny. pose proof cap_pos as Hc.
  destruct x as [sx|[|]| |[|] mx ex]; try discriminate;
  destruct y as [sy|[|]| |[|] my ey]; try discriminate;
  try pose proof (V_finite_bounds _ _ _ Vx) as Bx;
  try pose proof (V_finite_bounds _ _ _ Vy) as By;
  unfold SF64add; cbn [SFadd V].
  - split; [destruct sx, sy; reflexivity|].
    rewrite Rz_nonpos by lia. destruct sx, sy; reflexivity.
  - split; [reflexivity|]. rewrite Rz_sat by lia. reflexivity.
  - split; [reflexivity|]. rewrite Z.add_0_l. symmetry.
    apply Rz_exact. apply (V_representable (S754_finite false my ey)); auto.
  - split; [reflexivity|]. rewrite Rz_sat by lia. reflexivity.
  - split; [reflexivity|]. rewrite Rz_sat by lia. reflexivity.
  - split; [reflexivity|]. rewrite Rz_sat by lia. reflexivity.
  - split; [reflexivity|]. rewrite Z.add_0_r. symmetry.
    apply Rz_exact. apply (V_representable (S754_finite false mx ex)); auto.
  - split; [reflexivity|]. rewrite Rz_sat by lia. reflexivity.
  - pose proof (valid_finite _ _ _ Vx) as [Hx _].
    pose proof (valid_finite _ _ _ Vy) as [Hy _].
    cbn [cond_Zopp Z.add binary_normalize].
    assert (Hb : - bias <= Z.min ex ey) by (unfold bias; lia).
    pose proof (binary_round_V
      (fst (shl_align mx ex (Z.min ex ey)) + fst (shl_align my ey (Z.min ex ey)))
      (Z.min ex ey) Hb) as [Hn Hv].
    split; [exact Hn|]. rewrite Hv. f_equal.
    rewrite Pos2Z.inj_add, Z.mul_add_distr_r.
    rewrite !aligned_value by lia. reflexivity.
Qed.

Theorem SFsub_V x y :
  valid_binary x = true -> valid_binary y = true ->
  fin_sf x = true -> fin_sf y = true -> V y <= V x ->
  nn_sf (SF64sub x y) = true /\ V (SF64sub x y) = Rz (V x - V y).
Proof.
  intros Vx Vy Fx Fy Hle. pose proof cap_pos as Hc.
  destruct x as [sx|[|]| |[|] mx ex]; try discriminate;
  destruct y as [sy|[|]| |[|] my ey]; try discriminate;
  try pose proof (V_finite_bounds _ _ _ Vx) as Bx;
  try pose proof (V_finite_bounds _ _ _ Vy) as By;
  unfold SF64sub; cbn [SFsub V] in *.
  - split; [destruct sx, sy; reflexivity|].
    rewrite Rz_nonpos by lia. destruct sx, sy; reflexivity.
  - lia.
  - split; [reflexivity|]. rewrite Z.sub_0_r. symmetry.
    apply Rz_exact. apply (V_representable (S754_finite false mx ex)); auto.
  - pose proof (valid_finite _ _ _ Vx) as [Hx _].
    pose proof (valid_finite _ _ _ Vy) as [Hy _].
    cbn [cond_Zopp].
    assert (Hb : - bias <= Z.min ex ey) by (unfold bias; lia).
    pose proof (aligned_value mx ex (Z.min ex ey) ltac:(lia) Hb) as Ax.
    pose proof (aligned_value my ey (Z.min ex ey) ltac:(lia) Hb) as Ay.
    set (a := fst (shl_align mx ex (Z.min ex ey))) in *.
    set (b := fst (shl_align my ey (Z.min ex ey))) in *.
    assert (Hp : 0 < 2 ^ (Z.min ex ey + bias)) by (apply pow2_pos; lia).
    assert (Hab : (Z.pos a - Z.pos b) * 2 ^ (Z.min ex ey + bias)
                  = Z.pos mx * 2 ^ (ex + bias) - Z.pos my * 2 ^ (ey + bias)) by lia.
    destruct (Z.pos a - Z.pos b) as [|p|p] eqn:Hd; cbn [binary_normalize].
    + split; [reflexivity|]. cbn [V]. rewrite <- Hab. rewrite Rz_nonpos by lia. reflexivity.
    + pose proof (binary_round_V p (Z.min ex ey) Hb) as [Hn Hv].
      split; [exact Hn|]. rewrite Hv, Hab. reflexivity.
    + exfalso. assert (Z.neg p * 2 ^ (Z.min ex ey + bias) < 0) by nia. lia.
Qed.

Lemma SFabs_V x : V (SFabs x) = V x.
Proof. destruct x; reflexivity. Qed.

(** ** Primitive floats *)

Local Open Scope float_scope.

Lemma fval_nonneg x : (0 <= fval x)%Z.
Proof.
  unfold fval. pose proof cap_pos.
  destruct (Prim2SF x) as [s|s| |s m e]; cbn [V]; try lia.
  all: pose proof (Z.pow_nonneg 2 (e + bias) ltac:(lia)); nia.
Qed.

Lemma nn_leb x : (0 <=? x) = nn x.
Proof.
  rewrite leb_spec. unfold nn. change (Prim2SF 0) with (S754_zero false).
  destruct (Prim2SF x) as [s|[|]| |[|] m e]; reflexivity.
Qed.

Lemma fin_is_nn x : fin x = true -> nn x = true.
Proof. apply fin_nn. Qed.

Lemma leb_fval x y : nn x = true -> nn y = true ->
  (x <=? y) = (fval x <=? fval y)%Z.
Proof. intros. rewrite leb_spec. apply SFleb_V; auto using Prim2SF_valid. Qed.

Lemma ltb_fval x y : nn x = true -> nn y = true ->
  (x <? y) = (fval x <? fval y)%Z.
Proof. intros. rewrite ltb_spec. apply SFltb_V; auto using Prim2SF_valid. Qed.

Lemma eqb_fval x y : nn x = true -> nn y = true ->
  (x =? y) = (fval x =? fval y)%Z.
Proof. intros. rewrite eqb_spec. apply SFeqb_V; auto using Prim2SF_valid. Qed.

Lemma fin_fval x : nn x = true -> fin x = (fval x <? cap)%Z.
Proof. intros. apply fin_V; auto using Prim2SF_valid. Qed.

Lemma fval_representable x : fin x = true -> representable (fval x).
Proof. intros. apply V_representable; auto using Prim2SF_valid. Qed.

Lemma mul_fval x y : fin x = true -> fin y = true ->
  nn (x * y) = true /\ fval (x * y) = Rz (fval x * fval y / 2 ^ bias).
Proof.
  intros. unfold nn, fval. rewrite mul_spec.
  apply SFmul_V; auto using Prim2SF_valid.
Qed.

Lemma add_fval x y : nn x = true -> nn y = true ->
  nn (x + y) = true /\ fval (x + y) = Rz (fval x + fval y).
Proof.
  intros. unfold nn, fval. rewrite add_spec.
  apply SFadd_V; auto using Prim2SF_valid.
Qed.

Lemma sub_fval x y : fin x = true -> fin y = true -> (fval y <= fval x)%Z ->
  nn (x - y) = true /\ fval (x - y) = Rz (fval x - fval y).
Proof.
  intros. unfold nn, fval. rewrite sub_spec.
  apply SFsub_V; auto using Prim2SF_valid.
Qed.

(** ** Signs, NaN and finiteness *)

Lemma nneg_ltb x : (x <? 0) = negb (nneg x).
Proof.
  rewrite ltb_spec. unfold nneg. change (Prim2SF 0) with (S754_zero false).
  destruct (Prim2SF x) as [s|[|]| |[|] m e]; reflexivity.
Qed.

Lemma nn_nneg x : nn x = true -> nneg x = true.
Proof.
  unfold nn, nneg. destruct (Prim2SF x) as [s|[|]| |[|] m e]; try discriminate; reflexivity.
Qed.

Lemma nneg_cases x : nneg x = true -> nn x = true \/ Prim2SF x = S754_nan.
Proof.
  unfold nn, nneg. destruct (Prim2SF x) as [s|[|]| |[|] m e]; try discriminate; auto.
Qed.

Lemma SFmul_nn x y :
  valid_binary x = true -> valid_binary y = true ->
  nn_sf x = true -> nn_sf y = true ->
  nneg_sf (SF64mul x y) = true /\
  ((fin_sf x = true \/ 0 < V y)%Z -> (fin_sf y = true \/ 0 < V x)%Z ->
   nn_sf (SF64mul x y) = true).
Proof.
  intros Vx Vy Nx Ny.
  destruct (fin_sf x) eqn:Fx, (fin_sf y) eqn:Fy.
  - destruct (SFmul_V x y Vx Vy Fx Fy) as [Hn _]. split; [|auto].
    destruct (SF64mul x y) as [s|[|]| |[|] m e]; try discriminate; reflexivity.
  - destruct x as [sx|[|]| |[|] mx ex]; try discriminate;
    destruct y as [sy|[|]| |[|] my ey]; try discriminate;
    (split; [reflexivity|]); cbn [V]; intros [H|H] [H'|H']; try discriminate; try lia; reflexivity.
  - destruct x as [sx|[|]| |[|] mx ex]; try discriminate;
    destruct y as [sy|[|]| |[|] my ey]; try discriminate;
    (split; [reflexivity|]); cbn [V]; intros [H|H] [H'|H']; try discriminate; try lia; reflexivity.
  - destruct x as [sx|[|]| |[|] mx ex]; try discriminate;
    destruct y as [sy|[|]| |[|] my ey]; try discriminate;
    (split; [reflexivity|]); reflexivity.
Qed.

Lemma mul_nn x y : nn x = true -> nn y = true ->
  (fin x = true \/ 0 < fval y)%Z -> (fin y = true \/ 0 < fval x)%Z ->
  nn (x * y) = true.
Proof.
  intros Nx Ny H1 H2. unfold nn. rewrite mul_spec.
  apply SFmul_nn; auto using Prim2SF_valid.
Qed.

Lemma nneg_mul x y : nneg x = true -> nneg y = true -> nneg (x * y) = true.
Proof.
  intros Hx Hy. unfold nneg. rewrite mul_spec.
  destruct (nneg_cases x Hx) as [Nx|Nx]; [|rewrite Nx; reflexivity].
  destruct (nneg_cases y Hy) as [Ny|Ny].
  - apply SFmul_nn; auto using Prim2SF_valid.
  - rewrite Ny. destruct (Prim2SF x); reflexivity.
Qed.

Lemma nneg_add x y : nneg x = true -> nneg y = true -> nneg (x + y) = true.
Proof.
  intros Hx Hy.
  destruct (nneg_cases x Hx) as [Nx|Nx].
  - destruct (nneg_cases y Hy) as [Ny|Ny].
    + apply nn_nneg. apply add_fval; assumption.
    + unfold nneg. rewrite add_spec, Ny. destruct (Prim2SF x); reflexivity.
  - unfold nneg. rewrite add_spec, Nx. reflexivity.
Qed.

Lemma SFcompare_refl_finite s m e :
  SFcompare (S754_finite s m e) (S754_finite s m e) = Some Eq.
Proof.
  cbn [SFcompare]. rewrite Z.compare_refl.
  change (Pos.compare_cont Eq m m) with (Pos.compare m m).
  rewrite Pos.compare_refl. destruct s; reflexivity.
Qed.

Lemma is_finite_spec x : is_finite x = finite_sf (Prim2SF x).
Proof.
  unfold is_finite, is_nan, is_infinity.
  rewrite !eqb_spec, abs_spec. change (Prim2SF infinity) with (S754_infinity false).
  unfold SFeqb.
  destruct (Prim2SF x) as [s|s| |s m e]; cbn [SFabs finite_sf].
  - reflexivity.
  - destruct s; reflexivity.
  - reflexivity.
  - rewrite !SFcompare_refl_finite. reflexivity.
Qed.

Lemma fin_finite x : nneg x = true -> is_finite x = fin x.
Proof.
  rewrite is_finite_spec. unfold nneg, fin.
  destruct (Prim2SF x) as [s|[|]| |[|] m e]; try discriminate; reflexivity.
Qed.

(** [abs (x - x) < eps] holds exactly for the finite non-negative [x]. *)
Lemma self_difference x eps : nneg x = true -> nn eps = true -> (0 < fval eps)%Z ->
  (abs (x - x) <? eps) = is_finite x.
Proof.
  intros Hx He Hpos. rewrite fin_finite by assumption.
  destruct (fin x) eqn:Fx.
  - destruct (sub_fval x x Fx Fx ltac:(lia)) as [Hn Hv].
    rewrite Z.sub_diag, Rz_nonpos in Hv by lia.
    assert (Ha : nn (abs (x - x)) = true /\ fval (abs (x - x)) = 0%Z).
    { unfold nn, fval in *. rewrite abs_spec, SFabs_V. split; [|exact Hv].
      destruct (Prim2SF (x - x)) as [s|[|]| |[|] m e]; try discriminate; reflexivity. }
    destruct Ha as [Ha1 Ha2]. rewrite ltb_fval, Ha2 by assumption.
    apply Z.ltb_lt. assumption.
  - rewrite ltb_spec, abs_spec, sub_spec. unfold fin, nneg in *.
    destruct (Prim2SF x) as [s|[|]| |[|] m e]; try discriminate; reflexivity.
Qed.

Lemma ltb0_inv x : (0 <? x) = true -> nn x = true /\ (0 < fval x)%Z.
Proof.
  rewrite ltb_spec. unfold nn, fval. change (Prim2SF 0) with (S754_zero false).
  pose proof (Prim2SF_valid x) as Hv. pose proof cap_pos.
  destruct (Prim2SF x) as [s|[|]| |[|] m e]; try discriminate; intros _;
    (split; [reflexivity|]); cbn [V]; try lia.
  apply (V_finite_bounds _ _ _ Hv).
Qed.

Lemma eqb0_inv x : (x =? 0) = true -> nn x = true /\ fval x = 0%Z.
Proof.
  rewrite eqb_spec. unfold nn, fval. change (Prim2SF 0) with (S754_zero false).
  destruct (Prim2SF x) as [s|[|]| |[|] m e]; try discriminate; intros _;
    split; reflexivity.
Qed.

Lemma fold_add_nn (A : Type) (g : A -> float) (l : list A) : forall acc,
  nn acc = true -> List.Forall (fun a => nn (g a) = true) l ->
  nn (List.fold_left (fun s a => s + g a) l acc) = true.
Proof.
  induction l as [|a l IH]; intros acc Ha Hl; [exact Ha|].
  inversion Hl as [|? ? H1 H2]; subst. cbn [List.fold_left].
  apply IH; [|assumption]. apply add_fval; assumption.
Qed.

(** ** Order-preservation of the operations *)

Lemma fval_le_cap x : (fval x <= cap)%Z.
Proof.
  unfold fval. pose proof cap_pos. pose proof (Prim2SF_valid x) as Hv.
  destruct (Prim2SF x) as [s|s| |s m e]; cbn [V]; try lia.
  pose proof (V_finite_bounds _ _ _ Hv). lia.
Qed.

Lemma nn_notfin_inf x : nn x = true -> fin x = false -> x = infinity.
Proof.
  unfold nn, fin. intros Hn Hf. apply Prim2SF_inj.
  change (Prim2SF infinity) with (S754_infinity false).
  destruct (Prim2SF x) as [s|[|]| |[|] m e]; try discriminate; reflexivity.
Qed.

Lemma le_fin x y : nn x = true -> nn y = true -> (fval x <= fval y)%Z ->
  fin y = true -> fin x = true.
Proof.
  intros Hx Hy Hle Hf. rewrite fin_fval in * by assumption.
  apply Z.ltb_lt in Hf. apply Z.ltb_lt. lia.
Qed.

Lemma mul_inf k : fin k = true -> (0 < fval k)%Z ->
  nn (infinity * k) = true /\ fval (infinity * k) = cap.
Proof.
  unfold nn, fin, fval. rewrite mul_spec.
  change (Prim2SF infinity) with (S754_infinity false).
  destruct (Prim2SF k) as [s|[|]| |[|] m e]; try discriminate; cbn [V]; intros _ H;
    try lia. split; reflexivity.
Qed.

Theorem mul_mono x1 x2 k :
  nn x1 = true -> nn x2 = true -> (fval x1 <= fval x2)%Z ->
  fin k = true -> (fin x2 = true \/ 0 < fval k)%Z ->
  nn (x1 * k) = true /\ nn (x2 * k) = true /\ (fval (x1 * k) <= fval (x2 * k))%Z.
Proof.
  intros N1 N2 Hle Fk Hc.
  destruct (fin x2) eqn:F2.
  - pose proof (le_fin x1 x2 N1 N2 Hle F2) as F1.
    destruct (mul_fval x1 k F1 Fk) as [Ha Va].
    destruct (mul_fval x2 k F2 Fk) as [Hb Vb].
    split; [exact Ha|]. split; [exact Hb|]. rewrite Va, Vb.
    apply Rz_mono. apply Z.div_le_mono; [apply pow2_pos; unfold bias; lia|].
    apply Z.mul_le_mono_nonneg_r; [apply fval_nonneg|exact Hle].
  - destruct Hc as [Hc|Hc]; [discriminate Hc|].
    rewrite (nn_notfin_inf x2 N2 F2).
    destruct (mul_inf k Fk Hc) as [Hb Vb].
    assert (Ha : nn (x1 * k) = true).
    { apply mul_nn; auto using fin_is_nn. }
    split; [exact Ha|]. split; [exact Hb|]. rewrite Vb. apply fval_le_cap.
Qed.

Theorem add_mono a1 a2 b1 b2 :
  nn a1 = true -> nn a2 = true -> nn b1 = true -> nn b2 = true ->
  (fval a1 <= fval a2)%Z -> (fval b1 <= fval b2)%Z ->
  nn (a1 + b1) = true /\ nn (a2 + b2) = true /\
  (fval (a1 + b1) <= fval (a2 + b2))%Z.
Proof.
  intros Na1 Na2 Nb1 Nb2 Ha Hb.
  destruct (add_fval a1 b1 Na1 Nb1) as [S1 V1].
  destruct (add_fval a2 b2 Na2 Nb2) as [S2 V2].
  split; [exact S1|]. split; [exact S2|]. rewrite V1, V2. apply Rz_mono. lia.
Qed.

Lemma nn_not_nan x : nn x = true -> is_nan x = false.
Proof.
  intros H. unfold is_nan. rewrite eqb_fval, Z.eqb_refl by assumption. reflexivity.
Qed.

(** Subtraction of a smaller value from a finite one. *)
Lemma sub_le x y : fin x = true -> fin y = true -> (fval y <= fval x)%Z ->
  fin (x - y) = true /\ fval (x - y) = Rz (fval x - fval y) /\
  (fval (x - y) <= fval x)%Z.
Proof.
  intros Fx Fy Hle. destruct (sub_fval x y Fx Fy Hle) as [Hn Hv].
  assert (Hb : (fval (x - y) <= fval x)%Z).
  { rewrite Hv. rewrite <- (Rz_exact (fval x)) at 2 by (apply fval_representable; exact Fx).
    apply Rz_mono. pose proof (fval_nonneg y). lia. }
  split; [|split; assumption].
  rewrite fin_fval by assumption. apply Z.ltb_lt.
  rewrite fin_fval in Fx by (apply fin_is_nn; exact Fx). apply Z.ltb_lt in Fx. lia.
Qed.

Lemma leb_nn x y : nn x = true -> (x <=? y) = true -> nn y = true.
Proof.
  unfold nn. rewrite leb_spec. unfold SFleb.
  destruct (Prim2SF x) as [sx|[|]| |[|] mx ex]; try discriminate;
  destruct (Prim2SF y) as [sy|[|]| |[|] my ey]; try discriminate; reflexivity.
Qed.

Lemma Rz_fval x : nn x = true -> Rz (fval x) = fval x.
Proof.
  intros Hn. destruct (fin x) eqn:Hf.
  - apply Rz_exact, fval_representable, Hf.
  - rewrite (nn_notfin_inf x Hn Hf). change (fval infinity) with cap.
    apply Rz_sat. lia.
Qed.

Lemma add_ge a v : nn a = true -> nn v = true ->
  nn (a + v) = true /\ (fval a <= fval (a + v))%Z.
Proof.
  intros Ha Hv. destruct (add_fval a v Ha Hv) as [Hn Hs].
  split; [exact Hn|]. rewrite Hs, <- (Rz_fval a Ha) at 1.
  apply Rz_mono. pose proof (fval_nonneg v). lia.
Qed.

(** ** Exact results *)

Lemma pow2_divide a b : (0 <= a <= b)%Z -> (2 ^ a | 2 ^ b)%Z.
Proof.
  intros H. exists (2 ^ (b - a))%Z. rewrite <- Z.pow_add_r by lia. f_equal. lia.
Qed.

Lemma representable_divide w : (0 < w < cap)%Z ->
  (representable w <-> (2 ^ tz w | w)%Z).
Proof.
  intros Hw. pose proof (tz_ge w). unfold representable.
  rewrite Z.mod_divide by (apply Z.pow_nonzero; lia). intuition lia.
Qed.

Lemma tz_le_of_lt w k : (0 < w < 2 ^ k)%Z -> (1074 <= k - 53)%Z -> (tz w <= k - 53)%Z.
Proof.
  intros Hw Hk. unfold tz.
  assert (Z.log2 w < k)%Z by (apply Z.log2_lt_pow2; lia). lia.
Qed.

(** Below [2^(bias+55)] every multiple of [2^(bias+2)] is representable:
    the integers that are multiples of 4, below 2^55. *)
Lemma multiple_representable v :
  (0 <= v < 2 ^ (bias + 55))%Z -> (2 ^ (bias + 2) | v)%Z -> representable v.
Proof.
  intros Hv Hd. unfold bias in *.
  assert (Hcap : (2 ^ (2148 + 55) < cap)%Z) by (rewrite cap_eq; apply pow2_lt; lia).
  destruct (Z.eq_dec v 0) as [->|Hne].
  - split; [pose proof cap_pos; lia|]. apply Z.mod_0_l, Z.pow_nonzero; [lia|].
    pose proof (tz_ge 0). lia.
  - apply representable_divide; [lia|].
    pose proof (tz_le_of_lt v (2148 + 55) ltac:(lia) ltac:(lia)).
    pose proof (tz_ge v).
    apply Z.divide_trans with (2 ^ (2148 + 2))%Z; [apply pow2_divide; lia|exact Hd].
Qed.

(** Subtracting a multiple of 4 from a float below 2^55 is exact. *)
Lemma difference_representable x v :
  fin x = true -> (fval x < 2 ^ (bias + 55))%Z ->
  (2 ^ (bias + 2) | v)%Z -> (0 <= v <= fval x)%Z ->
  representable (fval x - v).
Proof.
  intros Fx Hx Hd Hv. unfold bias in *.
  assert (Hcap : (2 ^ (2148 + 55) < cap)%Z) by (rewrite cap_eq; apply pow2_lt; lia).
  destruct (Z.eq_dec (fval x - v) 0) as [->|Hne].
  - split; [pose proof cap_pos; lia|]. apply Z.mod_0_l, Z.pow_nonzero; [lia|].
    pose proof (tz_ge 0). lia.
  - pose proof (fval_representable x Fx) as Rx.
    apply representable_divide in Rx; [|lia].
    apply representable_divide; [lia|].
    pose proof (tz_le_of_lt (fval x) (2148 + 55) ltac:(lia) ltac:(lia)).
    pose proof (tz_ge (fval x)). pose proof (tz_ge (fval x - v)).
    pose proof (tz_mono (fval x - v) (fval x) ltac:(lia)).
    apply Z.divide_trans with (2 ^ tz (fval x))%Z; [apply pow2_divide; lia|].
    apply Z.divide_sub_r; [exact Rx|].
    apply Z.divide_trans with (2 ^ (2148 + 2))%Z; [apply pow2_divide; lia|exact Hd].
Qed.

End B64Facts.

Import B64Facts.

(* ====================================================================== *)
(** * The end-to-end scenario and the field equations *)
(* ====================================================================== *)

(** C2, as amended: for consumption 250 and flag "verde" the program
    returns three bracket lines with amounts 50.00, 75.00 and 50.00,
    subtotal 175.00, surcharge 0.00, tax base 175.00, ICMS 31.50,
    PIS 2.8875, COFINS 13.3175 and grand total 222.705 (each the binary64
    value nearest to the decimal), and a total tax of 47.705000000000005,
    one unit in the last place above the binary64 value nearest to 47.705. *)
Theorem calcular_faturamento_250_verde :
  calcular_faturamento 250 "verde" = Py.Returned fatura_250_verde.
Proof. vm_compute. reflexivity. Qed.

(** C2, as stated, fails on the total tax: the left-to-right float sum
    of the three taxes is not the float 47.705. *)
Lemma total_impostos_250_verde_differs :
  exists r,
    calcular_faturamento 250 "verde" = Py.Returned r /\
    total_impostos r = 47.705000000000005 /\
    (total_impostos r =? 47.705) = false.
Proof.
  exists fatura_250_verde. split; [vm_compute; reflexivity|].
  split; vm_compute; reflexivity.
Qed.

(** The fields of the record returned for a known flag, for use in the
    proofs below. *)
Lemma fatura_fields (c : float) (t : string) (taxa : float)
  (Ht : Py.get BANDEIRAS t = Some taxa) :
  exists r,
    calcular_faturamento c t = Py.Returned r /\
    consumo_kwh r = c /\ bandeira r = t /\
    faixas r = calcular_tarifacao_por_faixas c /\
    subtotal_consumo r = fold_left (fun acc f => acc + valor f) (faixas r) 0.0 /\
    adicional_bandeira r = subtotal_consumo r * taxa /\
    base_impostos r = subtotal_consumo r + adicional_bandeira r /\
    impostos r = map (fun i => (fst i, base_impostos r * snd i)) IMPOSTOS /\
    total_impostos r = fold_left (fun acc v => acc + v) (map snd (impostos r)) 0.0 /\
    total_final r = base_impostos r + total_impostos r.
Proof.
  unfold calcular_faturamento, calcular_adicional_bandeira, Py.getitem.
  rewrite Ht. cbn [Py.bind]. eexists. split; [reflexivity|].
  cbn [consumo_kwh bandeira faixas subtotal_consumo adicional_bandeira
       base_impostos impostos total_impostos total_final].
  repeat split; reflexivity.
Qed.

(** C8: the record returned for a known flag satisfies the field
    equations: the subtotal is the left fold of the line amounts, the tax
    base is subtotal plus surcharge, each tax is the base times its rate
    (in the order of [IMPOSTOS]), the total tax is the left fold of the
    taxes, and the grand total is base plus total tax. *)
Theorem calcular_faturamento_equations (c : float) (t : string) (taxa : float)
  (Ht : Py.get BANDEIRAS t = Some taxa) :
  exists r,
    calcular_faturamento c t = Py.Returned r /\
    consumo_kwh r = c /\ bandeira r = t /\
    faixas r = calcular_tarifacao_por_faixas c /\
    subtotal_consumo r = fold_left (fun acc f => acc + valor f) (faixas r) 0.0 /\
    adicional_bandeira r = subtotal_consumo r * taxa /\
    base_impostos r = subtotal_consumo r + adicional_bandeira r /\
    impostos r = map (fun i => (fst i, base_impostos r * snd i)) IMPOSTOS /\
    total_impostos r = fold_left (fun acc v => acc + v) (map snd (impostos r)) 0.0 /\
    total_final r = base_impostos r + total_impostos r.
Proof.
  unfold calcular_faturamento, calcular_adicional_bandeira.
  unfold Py.getitem. rewrite Ht. cbn [Py.bind].
  eexists. split; [reflexivity|].
  cbn [consumo_kwh bandeira faixas subtotal_consumo adicional_bandeira
       base_impostos impostos total_impostos total_final].
  unfold soma_valores, Py.reduce, calcular_impostos, calcular_imposto, Py.values.
  repeat split; reflexivity.
Qed.

Lemma calcular_faturamento_equations_witness :
  exists r,
    calcular_faturamento 250 "verde" = Py.Returned r /\
    consumo_kwh r = 250 /\ bandeira r = "verde" /\
    faixas r = calcular_tarifacao_por_faixas 250 /\
    subtotal_consumo r = fold_left (fun acc f => acc + valor f) (faixas r) 0.0 /\
    adicional_bandeira r = subtotal_consumo r * 0.0 /\
    base_impostos r = subtotal_consumo r + adicional_bandeira r /\
    impostos r = map (fun i => (fst i, base_impostos r * snd i)) IMPOSTOS /\
    total_impostos r = fold_left (fun acc v => acc + v) (map snd (impostos r)) 0.0 /\
    total_final r = base_impostos r + total_impostos r.
Proof. apply (calcular_faturamento_equations 250 "verde" 0.0). reflexivity. Defined.

(* ====================================================================== *)
(** * The surcharge and the flag *)
(* ====================================================================== *)

(** C5, as amended: for a flag of [BANDEIRAS] the surcharge is exactly the
    subtotal times the flag's rate; for any other flag the dictionary
    lookup raises [KeyError] with that flag, which the function does not
    catch. *)
Theorem calcular_adicional_bandeira_spec (subtotal : float) (t : string) :
  calcular_adicional_bandeira subtotal t =
  match Py.get BANDEIRAS t with
  | Some taxa => Py.Returned (subtotal * taxa)
  | None => Py.Raised (Py.KeyError t)
  end.
Proof.
  unfold calcular_adicional_bandeira, Py.getitem.
  destruct (Py.get BANDEIRAS t); reflexivity.
Qed.

(** C5, as stated, fails: an unknown flag gives no validation error but
    a [KeyError], which also escapes [calcular_faturamento]; the message
    for an unknown flag comes from [validar_bandeira] alone. *)
Lemma calcular_adicional_bandeira_azul :
  calcular_adicional_bandeira 100 "azul" = Py.Raised (Py.KeyError "azul") /\
  calcular_faturamento 100 "azul" = Py.Raised (Py.KeyError "azul") /\
  validar_bandeira "azul"
  = (false, "Bandeira inválida. Use: verde, amarela, vermelha").
Proof. repeat split; vm_compute; reflexivity. Qed.

(** The keys of [BANDEIRAS] are the three flags. *)
Lemma contains_BANDEIRAS (t : string) :
  Py.contains BANDEIRAS t = true <-> In t ["verde"; "amarela"; "vermelha"].
Proof.
  unfold Py.contains, BANDEIRAS. cbn [Py.get In].
  destruct (String.eqb_spec "verde" t) as [E1|E1]; [intuition|].
  destruct (String.eqb_spec "amarela" t) as [E2|E2]; [intuition|].
  destruct (String.eqb_spec "vermelha" t) as [E3|E3]; [intuition|].
  split; [discriminate|tauto].
Qed.

(** C7: the flag is matched through its lower-cased form against the keys
    of [BANDEIRAS]; on a match the validation succeeds and
    [validar_entradas] returns the lower-cased name; otherwise the error
    message lists the three valid names. "VERMELHA" gives "vermelha". *)
Theorem validar_bandeira_spec (raw : string) :
  (In (Py.lower raw) ["verde"; "amarela"; "vermelha"] ->
     validar_bandeira raw = (true, "") /\
     forall consumo x,
       validar_numero_positivo consumo = (true, Some x, "") ->
       validar_entradas consumo raw = (true, Some x, Py.lower raw, ""))
  /\
  (~ In (Py.lower raw) ["verde"; "amarela"; "vermelha"] ->
     validar_bandeira raw
     = (false, "Bandeira inválida. Use: verde, amarela, vermelha") /\
     forall consumo x,
       validar_numero_positivo consumo = (true, Some x, "") ->
       validar_entradas consumo raw
       = (false, None, "", "Bandeira inválida. Use: verde, amarela, vermelha"))
  /\
  validar_entradas "10" "VERMELHA" = (true, Some 10, "vermelha", "").
Proof.
  split; [|split].
  - intros Hin. apply contains_BANDEIRAS in Hin.
    assert (Hv : validar_bandeira raw = (true, "")).
    { unfold validar_bandeira. rewrite Hin. reflexivity. }
    split; [exact Hv|]. intros consumo x Hc.
    unfold validar_entradas. rewrite Hc, Hv. reflexivity.
  - intros Hin.
    assert (Hc : Py.contains BANDEIRAS (Py.lower raw) = false).
    { destruct (Py.contains BANDEIRAS (Py.lower raw)) eqn:E; [|reflexivity].
      apply contains_BANDEIRAS in E. contradiction. }
    assert (Hv : validar_bandeira raw
                 = (false, "Bandeira inválida. Use: verde, amarela, vermelha")).
    { unfold validar_bandeira. rewrite Hc. reflexivity. }
    split; [exact Hv|]. intros consumo x Hx.
    unfold validar_entradas. rewrite Hx, Hv. reflexivity.
  - vm_compute. reflexivity.
Qed.

(* ====================================================================== *)
(** * The consumption text *)
(* ====================================================================== *)

(** C6 at the input "nan": [float] accepts it, the test [num < 0] is
    false for a NaN, and the validation succeeds with a value that is
    not a non-negative number; [validar_entradas] hands it on as the
    consumption. *)
Theorem validar_numero_positivo_nan :
  validar_numero_positivo "nan" = (true, Some nan, "") /\
  (0 <=? nan) = false /\ is_nan nan = true /\
  validar_entradas "nan" "verde" = (true, Some nan, "verde", "").
Proof. repeat split; vm_compute; reflexivity. Qed.

(** The examples of C6 that the program does satisfy. *)
Lemma validar_numero_positivo_examples :
  validar_numero_positivo "150,5" = (true, Some 150.5, "") /\
  validar_numero_positivo "150.5" = (true, Some 150.5, "") /\
  validar_numero_positivo "abc" = (false, None, msg_invalido) /\
  validar_numero_positivo "-5" = (false, None, msg_negativo).
Proof. repeat split; vm_compute; reflexivity. Qed.

(** Every accepted value is what [float] read from the text with commas
    as dots, and it is non-negative or a NaN. *)
Lemma validar_numero_positivo_accepts (s : string) (x : float) (m : string) :
  validar_numero_positivo s = (true, Some x, m) ->
  Py.float_of_string (Py.replace_char "," "." s) = Some x /\
  ((0 <=? x) = true \/ is_nan x = true).
Proof.
  unfold validar_numero_positivo.
  destruct (Py.float_of_string (Py.replace_char "," "." s)) as [num|]; [|discriminate].
  destruct (num <? 0) eqn:E; [discriminate|].
  intros H. injection H as <- _. split; [reflexivity|].
  rewrite nneg_ltb in E. apply negb_false_iff in E.
  destruct (nneg_cases num E) as [Hn|Hn].
  - left. rewrite nn_leb. exact Hn.
  - right. unfold is_nan. rewrite eqb_spec, Hn. reflexivity.
Qed.

Section Dots.

Let dot : ascii := "."%char.

Lemma count_char_app c a b :
  count_char c (a ++ b)%list = (count_char c a + count_char c b)%nat.
Proof. induction a as [|d a IH]; cbn [count_char app]; [reflexivity|]. rewrite IH. lia. Qed.

Lemma count_char_rev c a : count_char c (rev a) = count_char c a.
Proof.
  induction a as [|d a IH]; [reflexivity|].
  cbn [rev count_char]. rewrite count_char_app, IH. cbn [count_char]. lia.
Qed.

Lemma space_not_dot c : Py.is_space c = true -> Ascii.eqb c dot = false.
Proof.
  intros H. destruct (Ascii.eqb_spec c dot) as [->|]; [discriminate H|reflexivity].
Qed.

Lemma digit_not_dot c : Py.is_digit c = true -> Ascii.eqb c dot = false.
Proof.
  intros H. destruct (Ascii.eqb_spec c dot) as [->|]; [discriminate H|reflexivity].
Qed.

Lemma count_lstrip s : count_char dot (Py.lstrip s) = count_char dot s.
Proof.
  induction s as [|c s IH]; [reflexivity|].
  cbn [Py.lstrip]. destruct (Py.is_space c) eqn:E; [|reflexivity].
  cbn [count_char]. rewrite (space_not_dot c E), IH. reflexivity.
Qed.

Lemma count_strip s : count_char dot (Py.strip s) = count_char dot s.
Proof.
  unfold Py.strip. rewrite count_char_rev, count_lstrip, count_char_rev, count_lstrip.
  reflexivity.
Qed.

Lemma count_drop_underscores s : forall prev u,
  Py.drop_underscores prev s = Some u -> count_char dot u = count_char dot s.
Proof.
  induction s as [|c s IH]; intros prev u H; cbn [Py.drop_underscores] in H.
  - destruct prev as [p|]; [destruct (Ascii.eqb_spec p "_"%char)|].
    + subst p. discriminate H.
    + assert (u = []) as ->; [|reflexivity].
      destruct p as [[|] [|] [|] [|] [|] [|] [|] [|]]; try (injection H as <-; reflexivity).
      contradiction n; reflexivity.
    + injection H as <-. reflexivity.
  - destruct (Ascii.eqb_spec c "_"%char) as [->|Hc].
    + cbn [count_char]. change (Ascii.eqb "_" dot) with false.
      destruct prev as [p|]; [|discriminate H].
      destruct (Py.is_digit p); [|discriminate H].
      apply (IH _ _ H).
    + destruct (match prev with Some "_"%char => Py.is_digit c | _ => true end);
        [|discriminate H].
      destruct (Py.drop_underscores (Some c) s) as [u'|] eqn:E; [|discriminate H].
      cbn [option_map] in H. injection H as <-.
      cbn [count_char]. rewrite (IH _ _ E). reflexivity.
Qed.

Lemma count_read_digits s : forall acc len,
  count_char dot (snd (Py.read_digits acc len s)) = count_char dot s.
Proof.
  induction s as [|c s IH]; intros acc len; [reflexivity|].
  cbn [Py.read_digits]. destruct (Py.is_digit c) eqn:E; [|reflexivity].
  rewrite IH. cbn [count_char]. rewrite (digit_not_dot c E). reflexivity.
Qed.

Lemma count_read_sign s :
  count_char dot (snd (Py.read_sign s)) = count_char dot s.
Proof.
  destruct s as [|c s]; [reflexivity|].
  unfold Py.read_sign.
  destruct c as [[|] [|] [|] [|] [|] [|] [|] [|]]; reflexivity.
Qed.

Lemma count_read_exponent s :
  count_char dot (snd (Py.read_exponent s)) = count_char dot s.
Proof.
  destruct s as [|c s]; [reflexivity|].
  unfold Py.read_exponent.
  destruct (Ascii.eqb_spec (Py.tolower c) "e"%char) as [He|He]; [|reflexivity].
  pose proof (count_read_sign s) as Hs.
  destruct (Py.read_sign s) as [eneg s1]. cbn [snd] in Hs.
  pose proof (count_read_digits s1 0 0) as Hd.
  destruct (Py.read_digits 0 0 s1) as [[v len] s2]. cbn [snd] in Hd.
  destruct (len =? 0)%Z; [reflexivity|].
  cbn [snd count_char].
  destruct (Ascii.eqb_spec c dot) as [->|]; [discriminate He|]. lia.
Qed.

Lemma parse_decimal_dots s x :
  Py.parse_decimal s = Some x -> (count_char dot s <= 1)%nat.
Proof.
  unfold Py.parse_decimal.
  pose proof (count_read_sign s) as Hs.
  destruct (Py.read_sign s) as [neg s1]. cbn [snd] in Hs.
  pose proof (count_read_digits s1 0 0) as Hd.
  destruct (Py.read_digits 0 0 s1) as [[ip ilen] s2]. cbn [snd] in Hd.
  assert (Hrest : forall m flen s3,
    (if (ilen + flen =? 0)%Z then None
     else let '(ex, s4) := Py.read_exponent s3 in
          match s4 with [] => Some (Py.of_decimal neg m (ex - flen)) | _ => None end)
    = Some x -> count_char dot s3 = 0%nat).
  { intros m flen s3 H. destruct (ilen + flen =? 0)%Z; [discriminate H|].
    pose proof (count_read_exponent s3) as He.
    destruct (Py.read_exponent s3) as [ex s4]. cbn [snd] in He.
    destruct s4; [|discriminate H]. rewrite <- He. reflexivity. }
  destruct s2 as [|c s2'].
  - intros H. apply Hrest in H. rewrite <- Hs, <- Hd, H. lia.
  - destruct (Ascii.eqb_spec c dot) as [->|Hc].
    + pose proof (count_read_digits s2' ip 0) as Hf.
      destruct (Py.read_digits ip 0 s2') as [[m flen] s3]. cbn [snd] in Hf.
      intros H. apply Hrest in H.
      rewrite <- Hs, <- Hd. cbn [count_char]. rewrite <- Hf, H. reflexivity.
    + intros H.
      assert (H' : count_char dot (c :: s2') = 0%nat).
      { apply (Hrest ip 0%Z).
        destruct c as [[|] [|] [|] [|] [|] [|] [|] [|]]; try exact H.
        contradiction Hc; reflexivity. }
      rewrite <- Hs, <- Hd, H'. lia.
Qed.

Lemma count_lower_list s : count_char dot (Py.lower_list s) = count_char dot s.
Proof.
  induction s as [|c s IH]; [reflexivity|].
  cbn [Py.lower_list map count_char]. fold (Py.lower_list s). rewrite IH. f_equal.
  destruct c as [[|] [|] [|] [|] [|] [|] [|] [|]]; reflexivity.
Qed.

Lemma list_eqb_eq a b : Py.list_eqb a b = true -> a = b.
Proof.
  unfold Py.list_eqb. intros H. apply String.eqb_eq in H.
  rewrite <- (list_ascii_of_string_of_list_ascii a), H.
  apply list_ascii_of_string_of_list_ascii.
Qed.

Lemma parse_inf_or_nan_dots s x :
  Py.parse_inf_or_nan s = Some x -> count_char dot s = 0%nat.
Proof.
  unfold Py.parse_inf_or_nan.
  pose proof (count_read_sign s) as Hs.
  destruct (Py.read_sign s) as [neg s1]. cbn [snd] in Hs.
  rewrite <- Hs, <- count_lower_list.
  destruct (Py.list_eqb (Py.lower_list s1) (list_ascii_of_string "inf")) eqn:E1.
  { apply list_eqb_eq in E1. rewrite E1. reflexivity. }
  destruct (Py.list_eqb (Py.lower_list s1) (list_ascii_of_string "infinity")) eqn:E2.
  { apply list_eqb_eq in E2. rewrite E2. reflexivity. }
  destruct (Py.list_eqb (Py.lower_list s1) (list_ascii_of_string "nan")) eqn:E3.
  { apply list_eqb_eq in E3. rewrite E3. reflexivity. }
  discriminate.
Qed.

(** A text that [float] accepts holds at most one dot. *)
Lemma float_of_string_dots s x :
  Py.float_of_string s = Some x ->
  (count_char dot (list_ascii_of_string s) <= 1)%nat.
Proof.
  unfold Py.float_of_string. rewrite <- (count_strip (list_ascii_of_string s)).
  destruct (Py.strip (list_ascii_of_string s)) as [|c t]; [discriminate|].
  destruct (Py.drop_underscores None (c :: t)) as [u|] eqn:E; [|discriminate].
  rewrite <- (count_drop_underscores _ _ _ E).
  destruct (Py.parse_decimal u) as [y|] eqn:P.
  - intros _. apply (parse_decimal_dots _ _ P).
  - intros H. rewrite (parse_inf_or_nan_dots _ _ H). lia.
Qed.

Lemma count_replace_comma s :
  count_char dot (list_ascii_of_string (Py.replace_char "," "." s))
  = (count_char ","%char (list_ascii_of_string s)
     + count_char dot (list_ascii_of_string s))%nat.
Proof.
  induction s as [|c s IH]; [reflexivity|].
  cbn [Py.replace_char list_ascii_of_string count_char]. rewrite IH.
  destruct (Ascii.eqb_spec c ","%char) as [->|Hc]; [reflexivity|].
  destruct (Ascii.eqb c dot); lia.
Qed.

Lemma replace_char_idem s :
  Py.replace_char "," "." (Py.replace_char "," "." s) = Py.replace_char "," "." s.
Proof.
  induction s as [|c s IH]; [reflexivity|].
  cbn [Py.replace_char]. rewrite IH. f_equal.
  destruct (Ascii.eqb_spec c ","%char) as [->|Hc]; [reflexivity|].
  destruct (Ascii.eqb_spec c ","%char); [contradiction|reflexivity].
Qed.

End Dots.

(** C9: a comma is read as a dot (the validation of a text is that of the
    text with every comma replaced by a dot, which holds no comma), so
    "1,000" succeeds with 1.0; a text with two or more commas, such as
    "1,2,3", is refused as invalid. *)
Theorem validar_numero_positivo_commas :
  (forall s, validar_numero_positivo s
             = validar_numero_positivo (Py.replace_char "," "." s)) /\
  (forall s, count_char ","%char
               (list_ascii_of_string (Py.replace_char "," "." s)) = 0%nat) /\
  (forall s, (2 <= count_char ","%char (list_ascii_of_string s))%nat ->
             validar_numero_positivo s = (false, None, msg_invalido)) /\
  validar_numero_positivo "1,000" = (true, Some 1.0, "") /\
  validar_numero_positivo "1,2,3" = (false, None, msg_invalido).
Proof.
  split; [|split; [|split; [|split]]].
  - intros s. unfold validar_numero_positivo. rewrite replace_char_idem. reflexivity.
  - intros s. induction s as [|c s IH]; [reflexivity|].
    cbn [Py.replace_char list_ascii_of_string count_char]. rewrite IH.
    destruct (Ascii.eqb_spec c ","%char) as [->|Hc]; [reflexivity|].
    destruct (Ascii.eqb_spec c ","%char); [contradiction|reflexivity].
  - intros s Hs. unfold validar_numero_positivo.
    destruct (Py.float_of_string (Py.replace_char "," "." s)) as [x|] eqn:E;
      [|reflexivity].
    apply float_of_string_dots in E. rewrite count_replace_comma in E. lia.
  - vm_compute. reflexivity.
  - vm_compute. reflexivity.
Qed.

(* ====================================================================== *)
(** * One bracket *)
(* ====================================================================== *)

Lemma TARIFAS_FAIXAS_ok : Forall faixa_ok TARIFAS_FAIXAS.
Proof.
  repeat constructor; try (vm_compute; reflexivity).
Qed.

Lemma min_nn (r w : float) : nn r = true -> nn w = true -> nn (Py.min r w) = true.
Proof. intros Hr Hw. unfold Py.min. destruct (w <? r); assumption. Qed.

(** C4, as amended: [calcular_faixa] returns
    [used = min(remaining, fim - inicio)] and [amount = used * tarifa] for
    every remaining consumption; for a bracket of the table and a
    remaining consumption that is not negative (and not a NaN) both are
    non-negative, and [used] is zero when the remaining consumption is
    zero. *)
Theorem calcular_faixa_spec (r : float) (f : faixa_tarifa)
  (Hf : In f TARIFAS_FAIXAS) :
  calcular_faixa r f
  = (Py.min r (fim f - inicio f), Py.min r (fim f - inicio f) * tarifa f) /\
  ((0 <=? r) = true ->
     (0 <=? fst (calcular_faixa r f)) = true /\
     (0 <=? snd (calcular_faixa r f)) = true) /\
  ((r =? 0) = true -> (fst (calcular_faixa r f) =? 0) = true).
Proof.
  pose proof TARIFAS_FAIXAS_ok as Hok. rewrite Forall_forall in Hok.
  destruct (Hok f Hf) as (Hw & Hwpos & Ht & Htpos).
  unfold calcular_faixa. cbn [fst snd]. split; [reflexivity|]. split.
  - rewrite !nn_leb. intros Hr.
    assert (Hu : nn (Py.min r (fim f - inicio f)) = true) by (apply min_nn; assumption).
    split; [exact Hu|]. apply mul_nn; auto using fin_is_nn.
  - intros H0. destruct (eqb0_inv r H0) as [Hr Hv].
    unfold Py.min. rewrite ltb_fval, Hv by assumption.
    replace (fval (fim f - inicio f) <? 0)%Z with false; [exact H0|].
    symmetry. apply Z.ltb_ge. lia.
Qed.

Lemma calcular_faixa_spec_witness :
  calcular_faixa 250 (mk_faixa_tarifa 0 100 0.50)
  = (Py.min 250 (100 - 0), Py.min 250 (100 - 0) * 0.50) /\
  ((0 <=? 250) = true ->
     (0 <=? fst (calcular_faixa 250 (mk_faixa_tarifa 0 100 0.50))) = true /\
     (0 <=? snd (calcular_faixa 250 (mk_faixa_tarifa 0 100 0.50))) = true) /\
  ((250 =? 0) = true ->
     (fst (calcular_faixa 250 (mk_faixa_tarifa 0 100 0.50)) =? 0) = true).
Proof.
  apply (calcular_faixa_spec 250 (mk_faixa_tarifa 0 100 0.50)).
  left. reflexivity.
Defined.

(** C4, as stated, fails for a negative remaining consumption: the first
    bracket then gives a negative quantity and a negative amount. *)
Lemma calcular_faixa_negative :
  In (mk_faixa_tarifa 0 100 0.50) TARIFAS_FAIXAS /\
  (-5 <=? 0) = true /\
  calcular_faixa (-5) (mk_faixa_tarifa 0 100 0.50) = (-5, -2.5) /\
  (0 <=? -5) = false /\ (0 <=? -2.5) = false /\ (-5 =? 0) = false.
Proof.
  split; [left; reflexivity|]. repeat split; vm_compute; reflexivity.
Qed.

(* ====================================================================== *)
(** * The invariant check *)
(* ====================================================================== *)

Lemma laco_faixas_valor_nn (fs : list faixa_tarifa) :
  Forall faixa_ok fs ->
  forall r res,
    Forall (fun i => nn (valor i) = true) res ->
    Forall (fun i => nn (valor i) = true) (laco_faixas fs r res).
Proof.
  induction 1 as [|f fs Hf Hfs IH]; intros r res Hres; cbn [laco_faixas].
  - exact Hres.
  - destruct (r <=? 0); [exact Hres|].
    unfold calcular_faixa. apply IH.
    destruct (0 <? Py.min r (fim f - inicio f)) eqn:Hpos; [|exact Hres].
    apply Forall_app. split; [exact Hres|]. constructor; [|constructor].
    cbn [valor]. destruct Hf as (_ & _ & Ht & Htpos).
    destruct (ltb0_inv _ Hpos) as [Hn Hv].
    apply mul_nn; auto using fin_is_nn.
Qed.

Lemma soma_valores_nn (c : float) :
  nn (soma_valores (calcular_tarifacao_por_faixas c)) = true.
Proof.
  unfold soma_valores, Py.reduce.
  apply (fold_add_nn _ valor); [vm_compute; reflexivity|].
  apply laco_faixas_valor_nn; [apply TARIFAS_FAIXAS_ok|constructor].
Qed.

Lemma BANDEIRAS_nneg (t : string) (taxa : float) :
  Py.get BANDEIRAS t = Some taxa -> nneg taxa = true.
Proof.
  unfold BANDEIRAS. cbn [Py.get].
  destruct (String.eqb "verde" t); [intros H; injection H as <-; vm_compute; reflexivity|].
  destruct (String.eqb "amarela" t); [intros H; injection H as <-; vm_compute; reflexivity|].
  destruct (String.eqb "vermelha" t); [intros H; injection H as <-; vm_compute; reflexivity|].
  discriminate.
Qed.

Lemma total_final_nneg (c : float) (t : string) (r : fatura) :
  calcular_faturamento c t = Py.Returned r -> nneg (total_final r) = true.
Proof.
  intros Hr.
  destruct (Py.get BANDEIRAS t) as [taxa|] eqn:Ht.
  - destruct (fatura_fields c t taxa Ht)
      as (r' & Hr' & _ & _ & Hf & Hs & Ha & Hb & Hi & Hti & Htf).
    rewrite Hr in Hr'. injection Hr' as <-.
    assert (Ns : nneg (subtotal_consumo r) = true).
    { apply nn_nneg. rewrite Hs, Hf. apply soma_valores_nn. }
    assert (Na : nneg (adicional_bandeira r) = true).
    { rewrite Ha. apply nneg_mul; [exact Ns|]. apply (BANDEIRAS_nneg _ _ Ht). }
    assert (Nb : nneg (base_impostos r) = true).
    { rewrite Hb. apply nneg_add; assumption. }
    rewrite Htf. apply nneg_add; [exact Nb|].
    rewrite Hti, Hi. unfold IMPOSTOS. cbn [map fold_left fst snd].
    repeat apply nneg_add; try (apply nneg_mul; [exact Nb|]); vm_compute; reflexivity.
  - unfold calcular_faturamento, calcular_adicional_bandeira, Py.getitem in Hr.
    rewrite Ht in Hr. discriminate Hr.
Qed.

(** C1, as amended: [verificar_invariantes] returns [false] when the
    grand total is negative and otherwise tells whether the absolute
    difference to the recomputed sum is below 0.01; on the result of
    [calcular_faturamento] for a known flag it returns [true] exactly when
    the grand total is finite (neither an infinity nor a NaN), for every
    consumption. *)
Theorem verificar_invariantes_spec (c : float) (t : string)
  (Ht : Py.contains BANDEIRAS t = true) :
  (forall r,
     verificar_invariantes r =
     if total_final r <? 0 then false
     else abs (soma_valores (faixas r) + adicional_bandeira r
               + total_impostos r - total_final r) <? 0.01) /\
  exists r,
    calcular_faturamento c t = Py.Returned r /\
    verificar_invariantes r = is_finite (total_final r).
Proof.
  split; [reflexivity|].
  unfold Py.contains in Ht.
  destruct (Py.get BANDEIRAS t) as [taxa|] eqn:Hg; [|discriminate Ht].
  destruct (fatura_fields c t taxa Hg)
    as (r & Hr & _ & _ & Hf & Hs & Ha & Hb & Hi & Hti & Htf).
  exists r. split; [exact Hr|].
  pose proof (total_final_nneg c t r Hr) as Hn.
  unfold verificar_invariantes. rewrite nneg_ltb, Hn. cbn [negb].
  replace (soma_valores (faixas r) + adicional_bandeira r + total_impostos r)
    with (total_final r).
  - apply self_difference; [exact Hn| |]; vm_compute; reflexivity.
  - rewrite Htf, Hb, Hs. reflexivity.
Qed.

Lemma verificar_invariantes_spec_witness :
  (forall r,
     verificar_invariantes r =
     if total_final r <? 0 then false
     else abs (soma_valores (faixas r) + adicional_bandeira r
               + total_impostos r - total_final r) <? 0.01) /\
  exists r,
    calcular_faturamento 250 "verde" = Py.Returned r /\
    verificar_invariantes r = is_finite (total_final r).
Proof. apply (verificar_invariantes_spec 250 "verde"). reflexivity. Defined.

(** C1, as stated, fails when the bill overflows: 1.5e308 kWh under the
    green flag is accepted by the validation and gives a tax base of
    [inf * 0.0], a NaN, so the check returns [false]. *)
Lemma verificar_invariantes_overflow :
  validar_entradas "1.5e308" "verde" = (true, Some 1.5e308, "verde", "") /\
  (0 <=? 1.5e308) = true /\
  exists r,
    calcular_faturamento 1.5e308 "verde" = Py.Returned r /\
    is_nan (total_final r) = true /\
    verificar_invariantes r = false.
Proof.
  split; [vm_compute; reflexivity|]. split; [vm_compute; reflexivity|].
  eexists. split; [vm_compute; reflexivity|].
  split; vm_compute; reflexivity.
Qed.

(* ====================================================================== *)
(** * Monotonicity of the grand total *)
(* ====================================================================== *)

Lemma soma_valores_app (res : list item_faixa) (i : item_faixa) :
  soma_valores (res ++ [i]) = soma_valores res + valor i.
Proof. unfold soma_valores, Py.reduce. rewrite fold_left_app. reflexivity. Qed.

Lemma soma_valores_laco (fs : list faixa_tarifa) : forall r res,
  soma_valores (laco_faixas fs r res) = soma_laco fs r (soma_valores res).
Proof.
  induction fs as [|f fs IH]; intros r res; cbn [laco_faixas soma_laco].
  - reflexivity.
  - destruct (r <=? 0); [reflexivity|].
    unfold calcular_faixa. rewrite IH.
    destruct (0 <? Py.min r (fim f - inicio f)); [|reflexivity].
    rewrite soma_valores_app. reflexivity.
Qed.

Lemma total_final_total_de (c : float) (t : string) (taxa : float) :
  Py.get BANDEIRAS t = Some taxa ->
  exists r,
    calcular_faturamento c t = Py.Returned r /\
    subtotal_consumo r = soma_valores (calcular_tarifacao_por_faixas c) /\
    total_final r = total_de taxa (soma_valores (calcular_tarifacao_por_faixas c)).
Proof.
  intros Ht.
  destruct (fatura_fields c t taxa Ht)
    as (r & Hr & _ & _ & Hf & Hs & Ha & Hb & Hi & Hti & Htf).
  exists r. split; [exact Hr|]. split; [rewrite Hs, Hf; reflexivity|].
  rewrite Htf, Hti, Hi, map_map. cbn [snd].
  unfold total_de. rewrite Hb, Ha, Hs, Hf. reflexivity.
Qed.

Lemma min_fval (r w : float) : nn r = true -> nn w = true ->
  nn (Py.min r w) = true /\ fval (Py.min r w) = Z.min (fval r) (fval w).
Proof.
  intros Hr Hw. unfold Py.min. rewrite ltb_fval by assumption.
  destruct (Z.ltb_spec (fval w) (fval r)); (split; [assumption|lia]).
Qed.

Lemma leb_zero (r : float) : nn r = true -> (r <=? 0) = (fval r <=? 0)%Z.
Proof. intros Hr. rewrite leb_fval; [reflexivity|exact Hr|reflexivity]. Qed.

Lemma ltb_zero (u : float) : nn u = true -> (0 <? u) = (0 <? fval u)%Z.
Proof. intros Hu. rewrite ltb_fval; [reflexivity|reflexivity|exact Hu]. Qed.

Lemma soma_laco_zero (fs : list faixa_tarifa) (r acc : float) :
  nn r = true -> fval r = 0%Z -> soma_laco fs r acc = acc.
Proof.
  intros Hr H0. destruct fs as [|f fs]; [reflexivity|].
  cbn [soma_laco]. rewrite leb_zero, H0 by assumption. reflexivity.
Qed.

Lemma soma_laco_mono (fs : list faixa_tarifa) :
  Forall faixa_ok fs ->
  forall r1 r2 a1 a2,
    fin r1 = true -> fin r2 = true -> (fval r1 <= fval r2)%Z ->
    nn a1 = true -> nn a2 = true -> (fval a1 <= fval a2)%Z ->
    nn (soma_laco fs r1 a1) = true /\ nn (soma_laco fs r2 a2) = true /\
    (fval (soma_laco fs r1 a1) <= fval (soma_laco fs r2 a2))%Z.
Proof.
  induction 1 as [|f fs Hf Hfs IH]; intros r1 r2 a1 a2 F1 F2 Hr N1 N2 Ha.
  - cbn [soma_laco]. auto.
  - destruct Hf as (Hw & Hwpos & Ht & Htpos).
    pose proof (fin_is_nn _ F1) as R1. pose proof (fin_is_nn _ F2) as R2.
    set (w := fim f - inicio f) in *.
    (* one step from a positive remaining consumption *)
    assert (Hstep : forall r a, fin r = true -> nn a = true -> (0 < fval r)%Z ->
      soma_laco (f :: fs) r a = soma_laco fs (r - Py.min r w) (a + Py.min r w * tarifa f) /\
      fin (Py.min r w) = true /\ fval (Py.min r w) = Z.min (fval r) (fval w)).
    { intros r a Fr Na Hpos. pose proof (fin_is_nn _ Fr) as Nr.
      destruct (min_fval r w Nr Hw) as [Nu Vu].
      cbn [soma_laco]. fold w. rewrite leb_zero by assumption.
      replace (fval r <=? 0)%Z with false by (symmetry; apply Z.leb_gt; lia).
      rewrite ltb_zero, Vu by assumption.
      replace (0 <? Z.min (fval r) (fval w))%Z with true
        by (symmetry; apply Z.ltb_lt; lia).
      split; [reflexivity|]. split; [|reflexivity].
      apply (le_fin _ r Nu Nr); [lia|exact Fr]. }
    destruct (Z.le_gt_cases (fval r2) 0) as [Z2|P2].
    + (* both loops stop at once *)
      pose proof (fval_nonneg r1). pose proof (fval_nonneg r2).
      rewrite !soma_laco_zero by (assumption || lia). auto.
    + destruct (Hstep r2 a2 F2 N2 P2) as (E2 & Fu2 & Vu2).
      destruct (sub_le r2 (Py.min r2 w) F2 Fu2 ltac:(lia)) as (Fr2 & Vr2 & _).
      destruct (Z.le_gt_cases (fval r1) 0) as [Z1|P1].
      * (* the first loop stops, the second goes on *)
        pose proof (fval_nonneg r1).
        rewrite (soma_laco_zero (f :: fs) r1 a1) by (assumption || lia).
        rewrite <- (soma_laco_zero fs r1 a1) by (assumption || lia).
        rewrite E2.
        assert (Nv : nn (Py.min r2 w * tarifa f) = true).
        { apply mul_nn; auto using fin_is_nn. }
        destruct (add_ge a2 _ N2 Nv) as [Na Ga].
        apply IH; auto.
        -- pose proof (fval_nonneg (r2 - Py.min r2 w)). lia.
        -- lia.
      * (* both loops go on *)
        destruct (Hstep r1 a1 F1 N1 P1) as (E1 & Fu1 & Vu1).
        destruct (sub_le r1 (Py.min r1 w) F1 Fu1 ltac:(lia)) as (Fr1 & Vr1 & _).
        rewrite E1, E2.
        assert (Hu : (fval (Py.min r1 w) <= fval (Py.min r2 w))%Z) by lia.
        destruct (mul_mono _ _ (tarifa f) (fin_is_nn _ Fu1) (fin_is_nn _ Fu2) Hu Ht
                    (or_introl Fu2)) as (Nv1 & Nv2 & Hv).
        destruct (add_mono a1 a2 _ _ N1 N2 Nv1 Nv2 Ha Hv) as (Na1 & Na2 & Hacc).
        apply IH; auto.
        rewrite Vr1, Vr2. apply Rz_mono. lia.
Qed.

Lemma total_de_mono (taxa s1 s2 : float) :
  nn s1 = true -> nn s2 = true -> (fval s1 <= fval s2)%Z ->
  fin taxa = true -> (fin s2 = true \/ 0 < fval taxa)%Z ->
  nn (total_de taxa s1) = true /\ nn (total_de taxa s2) = true /\
  (fval (total_de taxa s1) <= fval (total_de taxa s2))%Z.
Proof.
  intros N1 N2 Hs Ft Hc. unfold total_de.
  destruct (mul_mono s1 s2 taxa N1 N2 Hs Ft Hc) as (Na1 & Na2 & Ha).
  destruct (add_mono s1 s2 _ _ N1 N2 Na1 Na2 Hs Ha) as (Nb1 & Nb2 & Hb).
  set (b1 := s1 + s1 * taxa) in *. set (b2 := s2 + s2 * taxa) in *.
  unfold IMPOSTOS. cbn [map fold_left snd].
  assert (Hk : forall k, fin k = true -> (0 < fval k)%Z ->
            nn (b1 * k) = true /\ nn (b2 * k) = true /\
            (fval (b1 * k) <= fval (b2 * k))%Z).
  { intros k Fk Pk. apply mul_mono; auto. }
  destruct (Hk 0.18) as (X1 & X2 & X3); [reflexivity|vm_compute; reflexivity|].
  destruct (Hk 0.0165) as (Y1 & Y2 & Y3); [reflexivity|vm_compute; reflexivity|].
  destruct (Hk 0.0761) as (W1 & W2 & W3); [reflexivity|vm_compute; reflexivity|].
  assert (N0 : nn 0.0 = true) by reflexivity.
  destruct (add_mono 0.0 0.0 _ _ N0 N0 X1 X2 (Z.le_refl _) X3) as (P1 & P2 & P3).
  destruct (add_mono _ _ _ _ P1 P2 Y1 Y2 P3 Y3) as (Q1 & Q2 & Q3).
  destruct (add_mono _ _ _ _ Q1 Q2 W1 W2 Q3 W3) as (T1 & T2 & T3).
  apply add_mono; assumption.
Qed.

Lemma BANDEIRAS_cases (t : string) (taxa : float) :
  Py.get BANDEIRAS t = Some taxa ->
  (t = "verde" /\ taxa = 0.0) \/ (t <> "verde" /\ fin taxa = true /\ (0 < fval taxa)%Z).
Proof.
  unfold BANDEIRAS. cbn [Py.get].
  destruct (String.eqb_spec "verde" t) as [E1|E1].
  { intros H. injection H as <-. left. auto. }
  destruct (String.eqb "amarela" t).
  { intros H. injection H as <-. right. repeat split; auto; vm_compute; reflexivity. }
  destruct (String.eqb "vermelha" t).
  { intros H. injection H as <-. right. repeat split; auto; vm_compute; reflexivity. }
  discriminate.
Qed.

Lemma subtotal_mono (c1 c2 : float) :
  nn c1 = true -> nn c2 = true -> (fval c1 <= fval c2)%Z ->
  nn (soma_valores (calcular_tarifacao_por_faixas c1)) = true /\
  nn (soma_valores (calcular_tarifacao_por_faixas c2)) = true /\
  (fval (soma_valores (calcular_tarifacao_por_faixas c1))
   <= fval (soma_valores (calcular_tarifacao_por_faixas c2)))%Z.
Proof.
  intros N1 N2 Hle. destruct (fin c2) eqn:F2.
  - unfold calcular_tarifacao_por_faixas. rewrite !soma_valores_laco.
    pose proof (le_fin c1 c2 N1 N2 Hle F2) as F1.
    apply (soma_laco_mono TARIFAS_FAIXAS TARIFAS_FAIXAS_ok c1 c2 _ _ F1 F2 Hle
             (eq_refl : nn (soma_valores []) = true)
             (eq_refl : nn (soma_valores []) = true) (Z.le_refl _)).
  - split; [apply soma_valores_nn|]. split; [apply soma_valores_nn|].
    rewrite (nn_notfin_inf c2 N2 F2).
    replace (soma_valores (calcular_tarifacao_por_faixas infinity)) with infinity
      by (vm_compute; reflexivity).
    change (fval infinity) with cap. apply fval_le_cap.
Qed.

(** C10, as amended: for a known flag and [0 <= c1 <= c2], the grand
    total for [c1] is at most the grand total for [c2] whenever the
    latter is not a NaN.  It is never a NaN under a flag other than
    "verde"; under "verde", whose rate is 0.0, it is a NaN exactly when
    the subtotal is not finite (an overflowed subtotal gives
    [inf * 0.0]). *)
Theorem total_final_monotone (t : string) (c1 c2 : float)
  (Ht : Py.contains BANDEIRAS t = true)
  (H0 : (0 <=? c1) = true) (H12 : (c1 <=? c2) = true) :
  exists r1 r2,
    calcular_faturamento c1 t = Py.Returned r1 /\
    calcular_faturamento c2 t = Py.Returned r2 /\
    (is_nan (total_final r2) = false ->
     (total_final r1 <=? total_final r2) = true) /\
    (t <> "verde" -> is_nan (total_final r2) = false) /\
    (t = "verde" ->
     is_nan (total_final r2) = negb (is_finite (subtotal_consumo r2))).
Proof.
  unfold Py.contains in Ht.
  destruct (Py.get BANDEIRAS t) as [taxa|] eqn:Hg; [|discriminate Ht].
  destruct (total_final_total_de c1 t taxa Hg) as (r1 & Hr1 & _ & T1).
  destruct (total_final_total_de c2 t taxa Hg) as (r2 & Hr2 & U2 & T2).
  exists r1, r2. split; [exact Hr1|]. split; [exact Hr2|].
  rewrite nn_leb in H0. pose proof (leb_nn c1 c2 H0 H12) as N2.
  rewrite leb_fval in H12 by assumption. apply Z.leb_le in H12.
  destruct (subtotal_mono c1 c2 H0 N2 H12) as (S1 & S2 & Hs).
  rewrite T1, T2, U2.
  set (s1 := soma_valores (calcular_tarifacao_por_faixas c1)) in *.
  set (s2 := soma_valores (calcular_tarifacao_por_faixas c2)) in *.
  destruct (BANDEIRAS_cases t taxa Hg) as [[Hv ->]|(Hnv & Ft & Pt)].
  - rewrite (fin_finite s2 (nn_nneg s2 S2)).
    destruct (fin s2) eqn:F2.
    + destruct (total_de_mono 0.0 s1 s2 S1 S2 Hs eq_refl (or_introl F2))
        as (A1 & A2 & A3).
      split; [|split; [intros Hn; contradiction|intros _; apply nn_not_nan; exact A2]].
      intros _. rewrite leb_fval by assumption. apply Z.leb_le. exact A3.
    + rewrite (nn_notfin_inf s2 S2 F2).
      split; [|split; [intros Hn; contradiction|intros _; vm_compute; reflexivity]].
      intros Hnan. vm_compute in Hnan. discriminate Hnan.
  - destruct (total_de_mono taxa s1 s2 S1 S2 Hs Ft (or_intror Pt))
      as (A1 & A2 & A3).
    split; [|split; [intros _; apply nn_not_nan; exact A2|intros Hv; contradiction]].
    intros _. rewrite leb_fval by assumption. apply Z.leb_le. exact A3.
Qed.

Lemma total_final_monotone_witness :
  exists r1 r2,
    calcular_faturamento 100 "amarela" = Py.Returned r1 /\
    calcular_faturamento 250 "amarela" = Py.Returned r2 /\
    (is_nan (total_final r2) = false ->
     (total_final r1 <=? total_final r2) = true) /\
    ("amarela" <> "verde" -> is_nan (total_final r2) = false) /\
    ("amarela" = "verde" ->
     is_nan (total_final r2) = negb (is_finite (subtotal_consumo r2))).
Proof.
  apply (total_final_monotone "amarela" 100 250); reflexivity.
Defined.

(** C10, as stated, fails under the green flag when the larger bill
    overflows: the grand total for 1.5e308 kWh is a NaN, and no number is
    at most a NaN. *)
Lemma total_final_overflow_not_monotone :
  (0 <=? 0) = true /\ (0 <=? 1.5e308) = true /\
  exists r1 r2,
    calcular_faturamento 0 "verde" = Py.Returned r1 /\
    calcular_faturamento 1.5e308 "verde" = Py.Returned r2 /\
    total_final r1 = 0 /\ is_nan (total_final r2) = true /\
    (total_final r1 <=? total_final r2) = false.
Proof.
  split; [reflexivity|]. split; [reflexivity|].
  eexists. eexists. split; [vm_compute; reflexivity|].
  split; [vm_compute; reflexivity|].
  repeat split; vm_compute; reflexivity.
Qed.

(* ====================================================================== *)
(** * The quantities of the breakdown *)
(* ====================================================================== *)

Lemma TARIFAS_FAIXAS_largura : Forall largura_ok TARIFAS_FAIXAS.
Proof.
  assert (H100 : (2 ^ (bias + 2) | fval 100)%Z) by (exists 25%Z; vm_compute; reflexivity).
  assert (H300 : (2 ^ (bias + 2) | fval 300)%Z) by (exists 75%Z; vm_compute; reflexivity).
  unfold TARIFAS_FAIXAS.
  constructor; [|constructor; [|constructor; [|constructor; [|constructor]]]];
    (split; [vm_compute; reflexivity|split; [vm_compute; reflexivity|]]);
    cbn [fim inicio].
  - right. exact H100.
  - right. exact H100.
  - right. exact H300.
  - left. reflexivity.
Qed.

Lemma soma_kwh_app (res : list item_faixa) (i : item_faixa) :
  soma_kwh (res ++ [i]) = soma_kwh res + kwh i.
Proof. unfold soma_kwh. rewrite fold_left_app. reflexivity. Qed.

Lemma soma_exata_app (res : list item_faixa) (i : item_faixa) :
  soma_exata (res ++ [i]) = (soma_exata res + fval (kwh i))%Z.
Proof.
  unfold soma_exata. induction res as [|j res IH]; cbn [app fold_right]; lia.
Qed.

Lemma laco_faixas_zero (fs : list faixa_tarifa) (r : float) (res : list item_faixa) :
  nn r = true -> fval r = 0%Z -> laco_faixas fs r res = res.
Proof.
  intros Hr H0. destruct fs as [|f fs]; [reflexivity|].
  cbn [laco_faixas]. rewrite leb_zero, H0 by assumption. reflexivity.
Qed.

Lemma laco_faixas_kwh_pos (fs : list faixa_tarifa) : forall r res,
  Forall (fun i => (0 <? kwh i) = true) res ->
  Forall (fun i => (0 <? kwh i) = true) (laco_faixas fs r res).
Proof.
  induction fs as [|f fs IH]; intros r res Hres; cbn [laco_faixas].
  - exact Hres.
  - destruct (r <=? 0); [exact Hres|].
    unfold calcular_faixa. apply IH.
    destruct (0 <? Py.min r (fim f - inicio f)) eqn:Hpos; [|exact Hres].
    apply Forall_app. split; [exact Hres|]. constructor; [exact Hpos|constructor].
Qed.

Lemma laco_faixas_soma (fs : list faixa_tarifa) :
  Forall largura_ok fs ->
  Exists (fun f => fval (fim f - inicio f) = cap) fs ->
  forall r res,
    fin r = true -> nn (soma_kwh res) = true ->
    (2 ^ (bias + 2) | fval (soma_kwh res))%Z ->
    (fval (soma_kwh res) + fval r < 2 ^ (bias + 55))%Z ->
    representable (fval (soma_kwh res) + fval r) ->
    nn (soma_kwh (laco_faixas fs r res)) = true /\
    fval (soma_kwh (laco_faixas fs r res)) = (fval (soma_kwh res) + fval r)%Z /\
    soma_exata (laco_faixas fs r res) = (soma_exata res + fval r)%Z.
Proof.
  induction 1 as [|f fs Hf Hfs IH]; intros Hex r res Fr Ns Ds Hlim Hrep.
  - inversion Hex.
  - destruct Hf as (Hw & Hwpos & Hwd).
    pose proof (fin_is_nn _ Fr) as Nr.
    pose proof (fval_nonneg r) as Hr0. pose proof (fval_nonneg (soma_kwh res)) as Hs0.
    destruct (Z.le_gt_cases (fval r) 0) as [Z0|P0].
    { rewrite laco_faixas_zero by (assumption || lia).
      split; [exact Ns|]. split; lia. }
    cbn [laco_faixas]. rewrite leb_zero by assumption.
    replace (fval r <=? 0)%Z with false by (symmetry; apply Z.leb_gt; lia).
    unfold calcular_faixa.
    set (w := fim f - inicio f) in *.
    destruct (min_fval r w Nr Hw) as [Nu Vu].
    set (u := Py.min r w) in *.
    rewrite ltb_zero by assumption.
    replace (0 <? fval u)%Z with true by (symmetry; apply Z.ltb_lt; lia).
    set (i := mk_item_faixa (rotulo f) u (tarifa f) (u * tarifa f)).
    assert (Fu : fin u = true) by (apply (le_fin u r Nu Nr); [lia|exact Fr]).
    destruct (sub_le r u Fr Fu ltac:(lia)) as (Fr' & Vr' & _).
    pose proof (soma_kwh_app res i) as Hs'. cbn [kwh i] in Hs'.
    destruct (add_fval (soma_kwh res) u Ns Nu) as [Ns' Vs'].
    rewrite <- Hs' in Ns', Vs'.
    pose proof (soma_exata_app res i) as He'. cbn [kwh i] in He'.
    destruct (Z.lt_ge_cases (fval w) (fval r)) as [Hlt|Hge].
    + (* the bracket is filled: [u] is its width *)
      assert (Vuw : fval u = fval w) by lia.
      assert (Dw : (2 ^ (bias + 2) | fval w)%Z).
      { destruct Hwd as [Hc|Hd]; [|exact Hd].
        rewrite fin_fval in Fr by assumption. apply Z.ltb_lt in Fr. lia. }
      assert (Hex' : Exists (fun f => fval (fim f - inicio f) = cap) fs).
      { inversion Hex as [? ? Hc|? ? Hc]; subst; [|exact Hc].
        fold w in Hc. rewrite fin_fval in Fr by assumption. apply Z.ltb_lt in Fr. lia. }
      rewrite Vuw in *.
      rewrite Rz_exact in Vs'
        by (apply multiple_representable; [lia|apply Z.divide_add_r; assumption]).
      rewrite Rz_exact in Vr'
        by (apply difference_representable; auto; lia).
      destruct (IH Hex' (r - u) (res ++ [i])%list Fr' Ns') as (A1 & A2 & A3).
      * rewrite Vs'. apply Z.divide_add_r; assumption.
      * rewrite Vs', Vr'. lia.
      * rewrite Vs', Vr'. replace (fval (soma_kwh res) + fval w + (fval r - fval w))%Z
          with (fval (soma_kwh res) + fval r)%Z by lia. exact Hrep.
      * split; [exact A1|]. split; [rewrite A2, Vs', Vr'; lia|rewrite A3, He', Vr'; lia].
    + (* the remaining consumption ends in this bracket *)
      assert (Vur : fval u = fval r) by lia.
      rewrite Vur, Z.sub_diag, Rz_nonpos in Vr' by lia.
      rewrite Vur, Rz_exact in Vs' by exact Hrep.
      rewrite laco_faixas_zero by (auto using fin_is_nn).
      split; [exact Ns'|]. split; [exact Vs'|]. rewrite He', Vur. reflexivity.
Qed.

(** C3, as amended: every line of the breakdown has a strictly positive
    quantity, for every consumption; the breakdown of a zero consumption is
    empty; and for [0 <= c < 2^55] the quantities sum to [c] exactly, both
    as Python's float sum and without rounding. *)
Theorem calcular_tarifacao_por_faixas_kwh (c : float) :
  Forall (fun i => (0 <? kwh i) = true) (calcular_tarifacao_por_faixas c) /\
  ((c =? 0) = true -> calcular_tarifacao_por_faixas c = []) /\
  ((0 <=? c) = true -> (c <? 36028797018963968) = true ->
     (soma_kwh (calcular_tarifacao_por_faixas c) =? c) = true /\
     soma_exata (calcular_tarifacao_por_faixas c) = fval c).
Proof.
  split; [|split].
  - apply laco_faixas_kwh_pos. constructor.
  - intros H0. destruct (eqb0_inv c H0) as [Nc Vc].
    apply laco_faixas_zero; assumption.
  - intros H0 Hlt. rewrite nn_leb in H0.
    rewrite ltb_fval in Hlt by (exact H0 || reflexivity). apply Z.ltb_lt in Hlt.
    replace (fval 36028797018963968) with (2 ^ (bias + 55))%Z in Hlt
      by (vm_compute; reflexivity).
    assert (Hcap : (2 ^ (bias + 55) < cap)%Z)
      by (rewrite cap_eq; apply Z.pow_lt_mono_r; unfold bias; lia).
    assert (Fc : fin c = true).
    { rewrite fin_fval by assumption. apply Z.ltb_lt. lia. }
    destruct (laco_faixas_soma TARIFAS_FAIXAS TARIFAS_FAIXAS_largura) with (r := c) (res := @nil item_faixa)
      as (A1 & A2 & A3).
    + do 3 apply Exists_cons_tl. apply Exists_cons_hd. reflexivity.
    + exact Fc.
    + reflexivity.
    + exists 0%Z. reflexivity.
    + change (fval (soma_kwh [])) with 0%Z. lia.
    + change (fval (soma_kwh [])) with 0%Z. rewrite Z.add_0_l.
      apply fval_representable. exact Fc.
    + change (fval (soma_kwh [])) with 0%Z in A2. cbn [soma_exata fold_right] in A3.
      unfold calcular_tarifacao_por_faixas. split; [|lia].
      rewrite eqb_fval by assumption. apply Z.eqb_eq. lia.
Qed.

(** C3, as stated, fails for large consumptions: at
    [c = 2^55 + 104] the subtractions of the loop round, and the quantities
    [100, 100, 300, 36028797018963568] sum to [c - 4]; Python's float sum
    gives [c - 8]. *)
Lemma calcular_tarifacao_por_faixas_kwh_rounds :
  (0 <=? 36028797018964072) = true /\
  map kwh (calcular_tarifacao_por_faixas 36028797018964072)
  = [100; 100; 300; 36028797018963568] /\
  soma_kwh (calcular_tarifacao_por_faixas 36028797018964072) = 36028797018964064 /\
  (soma_kwh (calcular_tarifacao_por_faixas 36028797018964072)
   =? 36028797018964072) = false /\
  (soma_exata (calcular_tarifacao_por_faixas 36028797018964072)
   =? fval 36028797018964072)%Z = false.
Proof. repeat split; vm_compute; reflexivity. Qed.

(* ====================================================================== *)
(** * Further properties: validation *)
(* ====================================================================== *)

Lemma validar_numero_positivo_cases (s : string) :
  validar_numero_positivo s = (false, None, msg_invalido) \/
  validar_numero_positivo s = (false, None, msg_negativo) \/
  exists x, validar_numero_positivo s = (true, Some x, "") /\ (x <? 0) = false.
Proof.
  unfold validar_numero_positivo.
  destruct (Py.float_of_string (Py.replace_char "," "." s)) as [x|]; [|auto].
  destruct (x <? 0) eqn:E; [auto|]. right. right. exists x. auto.
Qed.

Lemma validar_bandeira_cases (b : string) :
  (validar_bandeira b = (true, "") /\ Py.contains BANDEIRAS (Py.lower b) = true) \/
  (validar_bandeira b = (false, "Bandeira inválida. Use: verde, amarela, vermelha") /\
   Py.contains BANDEIRAS (Py.lower b) = false).
Proof.
  unfold validar_bandeira.
  destruct (Py.contains BANDEIRAS (Py.lower b)); [left|right]; split; reflexivity.
Qed.

(** A success of [validar_entradas], taken apart. *)
Lemma validar_entradas_success (consumo bandeira : string)
  (x : option float) (t m : string) :
  validar_entradas consumo bandeira = (true, x, t, m) ->
  exists c,
    x = Some c /\ m = "" /\ t = Py.lower bandeira /\
    validar_numero_positivo consumo = (true, Some c, "") /\
    validar_bandeira bandeira = (true, "") /\
    Py.get BANDEIRAS t <> None.
Proof.
  unfold validar_entradas.
  destruct (validar_numero_positivo_cases consumo) as [E|[E|(c & E & _)]];
    rewrite E; cbn [fst snd negb]; try discriminate.
  destruct (validar_bandeira_cases bandeira) as [[B C]|[B C]]; rewrite B;
    cbn [negb]; intros H; [|discriminate H].
  injection H as <- <- <-. exists c. repeat split.
  unfold Py.contains in C. destruct (Py.get BANDEIRAS (Py.lower bandeira));
    [discriminate|discriminate C].
Qed.

(** X1: the consumption is validated before the flag: when the
    consumption text is refused, [validar_entradas] fails with the
    consumption's message whatever the flag text is; and it succeeds only
    with a consumption that [validar_numero_positivo] accepted and the
    lower-cased flag, which is then a key of [BANDEIRAS]. *)
Theorem validar_entradas_order (consumo bandeira : string) :
  (fst (fst (validar_numero_positivo consumo)) = false ->
   validar_entradas consumo bandeira
   = (false, None, "", snd (validar_numero_positivo consumo)) /\
   In (snd (validar_numero_positivo consumo)) [msg_invalido; msg_negativo])
  /\
  (forall x t m,
     validar_entradas consumo bandeira = (true, x, t, m) ->
     exists c,
       x = Some c /\ m = "" /\ t = Py.lower bandeira /\
       validar_numero_positivo consumo = (true, Some c, "") /\
       validar_bandeira bandeira = (true, "") /\
       Py.get BANDEIRAS t <> None).
Proof.
  split; [|intros x t m; apply validar_entradas_success].
  unfold validar_entradas.
  destruct (validar_numero_positivo_cases consumo) as [E|[E|(c & E & _)]];
    rewrite E; cbn [fst snd negb].
  - intros _; split; [reflexivity|left; reflexivity].
  - intros _; split; [reflexivity|right; left; reflexivity].
  - discriminate.
Qed.

Lemma tolower_idem (c : ascii) : Py.tolower (Py.tolower c) = Py.tolower c.
Proof. destruct c as [[|] [|] [|] [|] [|] [|] [|] [|]]; reflexivity. Qed.

Lemma lower_idem (s : string) : Py.lower (Py.lower s) = Py.lower s.
Proof.
  induction s as [|c s IH]; [reflexivity|].
  cbn [Py.lower]. rewrite tolower_idem, IH. reflexivity.
Qed.

(** X2: the flag that [validar_entradas] returns is in normal form:
    lower-casing it again changes nothing, and validating the same
    consumption with the returned flag gives the same result. *)
Theorem validar_entradas_normal_form (consumo bandeira : string)
  (x : option float) (t m : string)
  (H : validar_entradas consumo bandeira = (true, x, t, m)) :
  Py.lower t = t /\ validar_entradas consumo t = (true, x, t, m).
Proof.
  destruct (validar_entradas_success _ _ _ _ _ H)
    as (c & -> & -> & -> & Hv & Hb & _).
  split; [apply lower_idem|].
  unfold validar_entradas. rewrite Hv. cbn [negb].
  unfold validar_bandeira in *. rewrite lower_idem.
  destruct (Py.contains BANDEIRAS (Py.lower bandeira)); [|discriminate Hb].
  cbn [negb]. reflexivity.
Qed.

Lemma validar_entradas_normal_form_witness :
  Py.lower "vermelha" = "vermelha" /\
  validar_entradas "150,5" "vermelha" = (true, Some 150.5, "vermelha", "").
Proof.
  apply (validar_entradas_normal_form "150,5" "VerMelha").
  vm_compute. reflexivity.
Defined.

(* ====================================================================== *)
(** * Further properties: from the validation to the bill *)
(* ====================================================================== *)

(** X3: what [validar_entradas] accepts, [calcular_faturamento] bills:
    the lookup of the flag cannot raise [KeyError] after a successful
    validation, and the bill carries the validated consumption and flag. *)
Theorem validated_inputs_are_billed (consumo_str bandeira_str : string)
  (c : float) (t m : string)
  (H : validar_entradas consumo_str bandeira_str = (true, Some c, t, m)) :
  exists r,
    calcular_faturamento c t = Py.Returned r /\
    consumo_kwh r = c /\ bandeira r = t /\ (c <? 0) = false.
Proof.
  destruct (validar_entradas_success _ _ _ _ _ H)
    as (c' & Hc & _ & _ & Hv & _ & Hg).
  injection Hc as <-.
  destruct (Py.get BANDEIRAS t) as [taxa|] eqn:G; [|contradiction].
  destruct (fatura_fields c t taxa G) as (r & Hr & F1 & F2 & _).
  exists r. repeat split; try assumption.
  unfold validar_numero_positivo in Hv.
  destruct (Py.float_of_string (Py.replace_char "," "." consumo_str)) as [y|];
    [|discriminate Hv].
  destruct (y <? 0) eqn:E; [discriminate Hv|].
  injection Hv as <-. exact E.
Qed.

Lemma validated_inputs_are_billed_witness :
  exists r,
    calcular_faturamento 150.5 "amarela" = Py.Returned r /\
    consumo_kwh r = 150.5 /\ bandeira r = "amarela" /\ (150.5 <? 0) = false.
Proof.
  apply (validated_inputs_are_billed "150,5" "AMARELA" 150.5 "amarela" "").
  vm_compute. reflexivity.
Defined.

(* ====================================================================== *)
(** * Further properties: the taxes *)
(* ====================================================================== *)

Lemma get_map_values {A B : Type} (g : A -> B) (d : Py.dict A) (k : string) :
  Py.get (map (fun i => (fst i, g (snd i))) d) k = option_map g (Py.get d k).
Proof.
  induction d as [|[k' v] d IH]; [reflexivity|].
  cbn [map Py.get fst snd]. destruct (String.eqb k' k); [reflexivity|exact IH].
Qed.

(** X4: the tax breakdown has the names of [IMPOSTOS], in its order, and
    looking a name up in it gives the base times the rate that the same
    name has in [IMPOSTOS]; so every name of the breakdown is a key of
    [IMPOSTOS] (the lookup [IMPOSTOS[nome]] of the display cannot fail). *)
Theorem calcular_impostos_lookup (base : float) :
  Py.keys (calcular_impostos base) = Py.keys IMPOSTOS /\
  (forall nome,
     Py.get (calcular_impostos base) nome
     = option_map (calcular_imposto base) (Py.get IMPOSTOS nome)) /\
  (forall nome,
     In nome (Py.keys (calcular_impostos base)) ->
     exists aliquota, Py.getitem IMPOSTOS nome = Py.Returned aliquota).
Proof.
  split; [reflexivity|]. split.
  - intros nome. unfold calcular_impostos. apply get_map_values.
  - intros nome Hin. unfold Py.getitem.
    cbn in Hin. destruct Hin as [<-|[<-|[<-|[]]]]; eexists; reflexivity.
Qed.

(* ====================================================================== *)
(** * Further properties: consumptions that bill nothing *)
(* ====================================================================== *)

Lemma is_nan_eq (x : float) : is_nan x = true -> x = nan.
Proof.
  unfold is_nan. rewrite eqb_spec. intros H. apply Prim2SF_inj.
  change (Prim2SF nan) with S754_nan. unfold SFeqb in H.
  destruct (Prim2SF x) as [s|s| |s m e]; try reflexivity.
  - discriminate H.
  - destruct s; discriminate H.
  - rewrite SFcompare_refl_finite in H. discriminate H.
Qed.

Lemma calcular_tarifacao_por_faixas_nothing (c : float) :
  (c <=? 0) = true \/ is_nan c = true -> calcular_tarifacao_por_faixas c = [].
Proof.
  intros [H|H].
  - unfold calcular_tarifacao_por_faixas, TARIFAS_FAIXAS. cbn [laco_faixas].
    rewrite H. reflexivity.
  - rewrite (is_nan_eq c H). vm_compute. reflexivity.
Qed.

Lemma BANDEIRAS_values (t : string) (taxa : float) :
  Py.get BANDEIRAS t = Some taxa -> taxa = 0.0 \/ taxa = 0.05 \/ taxa = 0.10.
Proof.
  unfold BANDEIRAS. cbn [Py.get].
  destruct (String.eqb "verde" t); [intros H; injection H as <-; auto|].
  destruct (String.eqb "amarela" t); [intros H; injection H as <-; auto|].
  destruct (String.eqb "vermelha" t); [intros H; injection H as <-; auto|].
  discriminate.
Qed.

Lemma calcular_faturamento_nula (c : float) (t : string) :
  Py.contains BANDEIRAS t = true ->
  (c <=? 0) = true \/ is_nan c = true ->
  calcular_faturamento c t = Py.Returned (fatura_nula c t).
Proof.
  intros Ht Hc. unfold Py.contains in Ht.
  destruct (Py.get BANDEIRAS t) as [taxa|] eqn:G; [|discriminate Ht].
  unfold calcular_faturamento, calcular_adicional_bandeira, Py.getitem.
  rewrite (calcular_tarifacao_por_faixas_nothing c Hc), G. cbn [Py.bind].
  destruct (BANDEIRAS_values t taxa G) as [->|[->| ->]]; vm_compute; reflexivity.
Qed.

(** X5: a consumption that is zero, negative or a NaN is billed nothing,
    under every known flag: the breakdown is empty and the subtotal, the
    surcharge, every tax and the grand total are 0.0; the invariant check
    accepts this bill. *)
Theorem calcular_faturamento_nothing (c : float) (t : string)
  (Ht : Py.contains BANDEIRAS t = true)
  (Hc : (c <=? 0) = true \/ is_nan c = true) :
  calcular_faturamento c t = Py.Returned (fatura_nula c t) /\
  verificar_invariantes (fatura_nula c t) = true.
Proof.
  split; [apply calcular_faturamento_nula; assumption|vm_compute; reflexivity].
Qed.

Lemma calcular_faturamento_nothing_witness :
  calcular_faturamento (-5) "verde" = Py.Returned (fatura_nula (-5) "verde") /\
  verificar_invariantes (fatura_nula (-5) "verde") = true.
Proof.
  apply (calcular_faturamento_nothing (-5) "verde"); [reflexivity|].
  left. reflexivity.
Defined.

(* ====================================================================== *)
(** * Further properties: the invariant check on any record *)
(* ====================================================================== *)



(** The check on a computed bill tells whether its total is finite. *)
Lemma verificar_invariantes_calculada (c : float) (t : string) (r : fatura) :
  calcular_faturamento c t = Py.Returned r ->
  verificar_invariantes r = is_finite (total_final r).
Proof.
  intros Hr. pose proof (total_final_nneg c t r Hr) as Hn.
  destruct (Py.get BANDEIRAS t) as [taxa|] eqn:G.
  - destruct (fatura_fields c t taxa G)
      as (r' & Hr' & _ & _ & Hf & Hs & Ha & Hb & Hi & Hti & Htf).
    rewrite Hr in Hr'. injection Hr' as <-.
    unfold verificar_invariantes. rewrite nneg_ltb, Hn. cbn [negb].
    replace (soma_valores (faixas r) + adicional_bandeira r + total_impostos r)
      with (total_final r) by (rewrite Htf, Hb, Hs; reflexivity).
    apply self_difference; [exact Hn| |]; vm_compute; reflexivity.
  - unfold calcular_faturamento, calcular_adicional_bandeira, Py.getitem in Hr.
    rewrite G in Hr. discriminate Hr.
Qed.

(* ====================================================================== *)
(** * Further properties: the button handler *)
(* ====================================================================== *)

(** X7: for every pair of texts the handler ends in one of three ways
    and never lets an exception out: a validation error with one of the
    three validation messages; the invariant error, for a validated input
    whose grand total is not finite; or the display of the bill of the
    validated consumption and flag, whose grand total is finite. *)
Theorem calcular_outcomes (consumo_str bandeira_str : string) :
  (exists msg,
     calcular consumo_str bandeira_str = inl (MostrarErro "Erro de Validação" msg) /\
     In msg [msg_invalido; msg_negativo;
             "Bandeira inválida. Use: verde, amarela, vermelha"])
  \/
  (exists c r,
     validar_entradas consumo_str bandeira_str
     = (true, Some c, Py.lower bandeira_str, "") /\
     calcular_faturamento c (Py.lower bandeira_str) = Py.Returned r /\
     is_finite (total_final r) = false /\
     calcular consumo_str bandeira_str
     = inl (MostrarErro "Erro" "Falha na verificação dos invariantes!"))
  \/
  (exists c r,
     validar_entradas consumo_str bandeira_str
     = (true, Some c, Py.lower bandeira_str, "") /\
     calcular_faturamento c (Py.lower bandeira_str) = Py.Returned r /\
     is_finite (total_final r) = true /\
     calcular consumo_str bandeira_str = inl (ExibirResultado r)).
Proof.
  unfold calcular, validar_entradas.
  destruct (validar_numero_positivo_cases consumo_str) as [E|[E|(c & E & _)]];
    rewrite E; cbn [negb].
  - left. eexists. split; [reflexivity|]. left. reflexivity.
  - left. eexists. split; [reflexivity|]. right. left. reflexivity.
  - destruct (validar_bandeira_cases bandeira_str) as [[B C]|[B C]]; rewrite B;
      cbn [negb].
    + unfold Py.contains in C.
      destruct (Py.get BANDEIRAS (Py.lower bandeira_str)) as [taxa|] eqn:G;
        [|discriminate C].
      destruct (fatura_fields c _ taxa G) as (r & Hr & _).
      rewrite Hr, (verificar_invariantes_calculada _ _ _ Hr).
      destruct (is_finite (total_final r)) eqn:F; cbn [negb].
      * right. right. exists c, r. auto.
      * right. left. exists c, r. auto.
    + left. eexists. split; [reflexivity|]. right. right. left. reflexivity.
Qed.

(** X8: up to 9e307 kWh nothing overflows: for every known flag and every
    consumption [0 <= c <= 9e307] the grand total is finite and the
    invariant check accepts the bill. *)
Theorem verificar_invariantes_holds_below (c : float) (t : string)
  (Ht : Py.contains BANDEIRAS t = true)
  (H0 : (0 <=? c) = true) (Hc : (c <=? 9e307) = true) :
  exists r,
    calcular_faturamento c t = Py.Returned r /\
    is_finite (total_final r) = true /\
    verificar_invariantes r = true.
Proof.
  unfold Py.contains in Ht.
  destruct (Py.get BANDEIRAS t) as [taxa|] eqn:G; [|discriminate Ht].
  destruct (total_final_total_de c t taxa G) as (r & Hr & _ & T).
  exists r. split; [exact Hr|].
  rewrite (verificar_invariantes_calculada c t r Hr).
  assert (F : is_finite (total_final r) = true); [|split; exact F].
  rewrite nn_leb in H0.
  assert (N9 : nn 9e307 = true) by reflexivity.
  rewrite leb_fval in Hc by assumption. apply Z.leb_le in Hc.
  destruct (subtotal_mono c 9e307 H0 N9 Hc) as (S1 & S2 & Hs).
  assert (F9 : fin (soma_valores (calcular_tarifacao_por_faixas 9e307)) = true)
    by (vm_compute; reflexivity).
  rewrite T.
  assert (Hk : forall k, fin k = true ->
            fin (total_de k (soma_valores (calcular_tarifacao_por_faixas 9e307))) = true ->
            is_finite (total_de k (soma_valores (calcular_tarifacao_por_faixas c))) = true).
  { intros k Fk Ft.
    destruct (total_de_mono k _ _ S1 S2 Hs Fk (or_introl F9)) as (A1 & A2 & A3).
    rewrite (fin_finite _ (nn_nneg _ A1)). apply (le_fin _ _ A1 A2 A3 Ft). }
  destruct (BANDEIRAS_values t taxa G) as [->|[->| ->]];
    (apply Hk; [reflexivity|vm_compute; reflexivity]).
Qed.

Lemma verificar_invariantes_holds_below_witness :
  exists r,
    calcular_faturamento 250 "vermelha" = Py.Returned r /\
    is_finite (total_final r) = true /\
    verificar_invariantes r = true.
Proof. apply (verificar_invariantes_holds_below 250 "vermelha"); reflexivity. Defined.

(* ====================================================================== *)
(** * Further properties: order between the amounts *)
(* ====================================================================== *)

(** X9: the subtotal never decreases with the consumption, and it is
    never a NaN: for all [0 <= c1 <= c2] (infinite ones included) the
    subtotal for [c1] is at most the subtotal for [c2], and both are
    non-negative. *)
Theorem subtotal_monotone (c1 c2 : float)
  (H0 : (0 <=? c1) = true) (H12 : (c1 <=? c2) = true) :
  (soma_valores (calcular_tarifacao_por_faixas c1)
   <=? soma_valores (calcular_tarifacao_por_faixas c2)) = true /\
  (0 <=? soma_valores (calcular_tarifacao_por_faixas c1)) = true /\
  is_nan (soma_valores (calcular_tarifacao_por_faixas c2)) = false.
Proof.
  rewrite nn_leb in H0. pose proof (leb_nn c1 c2 H0 H12) as N2.
  rewrite leb_fval in H12 by assumption. apply Z.leb_le in H12.
  destruct (subtotal_mono c1 c2 H0 N2 H12) as (S1 & S2 & Hs).
  split; [rewrite leb_fval by assumption; apply Z.leb_le; exact Hs|].
  split; [rewrite nn_leb; exact S1|apply nn_not_nan; exact S2].
Qed.

Lemma subtotal_monotone_witness :
  (soma_valores (calcular_tarifacao_por_faixas 150.5)
   <=? soma_valores (calcular_tarifacao_por_faixas infinity)) = true /\
  (0 <=? soma_valores (calcular_tarifacao_por_faixas 150.5)) = true /\
  is_nan (soma_valores (calcular_tarifacao_por_faixas infinity)) = false.
Proof. apply (subtotal_monotone 150.5 infinity); reflexivity. Defined.

Lemma total_de_da_base (taxa s : float) :
  total_de taxa s = total_da_base (s + s * taxa).
Proof. reflexivity. Qed.

Lemma total_impostos_nn (b : float) : nn b = true ->
  nn (fold_left (fun acc v => acc + v) (map (fun i => b * snd i) IMPOSTOS) 0.0)
  = true.
Proof.
  intros Nb. unfold IMPOSTOS. cbn [map fold_left snd].
  assert (Hk : forall k, fin k = true -> (0 < fval k)%Z -> nn (b * k) = true).
  { intros k Fk Pk. apply mul_nn; auto using fin_is_nn. }
  repeat (apply add_fval; [|apply Hk; [reflexivity|vm_compute; reflexivity]]).
  reflexivity.
Qed.

Lemma total_da_base_mono (b1 b2 : float) :
  nn b1 = true -> nn b2 = true -> (fval b1 <= fval b2)%Z ->
  nn (total_da_base b1) = true /\ nn (total_da_base b2) = true /\
  (fval (total_da_base b1) <= fval (total_da_base b2))%Z.
Proof.
  intros Nb1 Nb2 Hb. unfold total_da_base, IMPOSTOS. cbn [map fold_left snd].
  assert (Hk : forall k, fin k = true -> (0 < fval k)%Z ->
            nn (b1 * k) = true /\ nn (b2 * k) = true /\
            (fval (b1 * k) <= fval (b2 * k))%Z).
  { intros k Fk Pk. apply mul_mono; auto. }
  destruct (Hk 0.18) as (X1 & X2 & X3); [reflexivity|vm_compute; reflexivity|].
  destruct (Hk 0.0165) as (Y1 & Y2 & Y3); [reflexivity|vm_compute; reflexivity|].
  destruct (Hk 0.0761) as (W1 & W2 & W3); [reflexivity|vm_compute; reflexivity|].
  assert (N0 : nn 0.0 = true) by reflexivity.
  destruct (add_mono 0.0 0.0 _ _ N0 N0 X1 X2 (Z.le_refl _) X3) as (P1 & P2 & P3).
  destruct (add_mono _ _ _ _ P1 P2 Y1 Y2 P3 Y3) as (Q1 & Q2 & Q3).
  destruct (add_mono _ _ _ _ Q1 Q2 W1 W2 Q3 W3) as (T1 & T2 & T3).
  apply add_mono; assumption.
Qed.

(** The surcharge of a non-negative subtotal at a rate of at most 1. *)
Lemma adicional_le (s taxa : float) :
  nn s = true -> fin taxa = true -> (fval taxa <= 2 ^ bias)%Z ->
  (fin s = true \/ 0 < fval taxa)%Z ->
  nn (s * taxa) = true /\ (fval (s * taxa) <= fval s)%Z.
Proof.
  intros Ns Ft Ht Hc. destruct (fin s) eqn:Fs.
  - destruct (mul_fval s taxa Fs Ft) as [Na Va]. split; [exact Na|].
    rewrite Va. rewrite <- (Rz_fval s Ns) at 2. apply Rz_mono.
    pose proof (fval_nonneg s). pose proof (fval_nonneg taxa).
    apply Z.div_le_upper_bound; [apply pow2_pos; unfold bias; lia|].
    rewrite Z.mul_comm. apply Z.mul_le_mono_nonneg_r; lia.
  - destruct Hc as [Hc|Hc]; [discriminate Hc|].
    rewrite (nn_notfin_inf s Ns Fs).
    destruct (mul_inf taxa Ft Hc) as [Na Va]. split; [exact Na|].
    rewrite Va. change (fval infinity) with cap. lia.
Qed.

(** X10: within a bill whose grand total is not a NaN the amounts are
    ordered: the surcharge lies between 0 and the subtotal, the tax base
    is at least the subtotal, the total tax is not negative, and the
    grand total is at least the tax base.  This holds for every known
    flag and every consumption. *)
Theorem fatura_ordered (c : float) (t : string)
  (Ht : Py.contains BANDEIRAS t = true) :
  exists r,
    calcular_faturamento c t = Py.Returned r /\
    (is_nan (total_final r) = false ->
     (0 <=? adicional_bandeira r) = true /\
     (adicional_bandeira r <=? subtotal_consumo r) = true /\
     (subtotal_consumo r <=? base_impostos r) = true /\
     (0 <=? total_impostos r) = true /\
     (base_impostos r <=? total_final r) = true).
Proof.
  unfold Py.contains in Ht.
  destruct (Py.get BANDEIRAS t) as [taxa|] eqn:G; [|discriminate Ht].
  destruct (fatura_fields c t taxa G)
    as (r & Hr & _ & _ & Hf & Hs & Ha & Hb & Hi & Hti & Htf).
  exists r. split; [exact Hr|]. intros Hnan.
  assert (Ns : nn (subtotal_consumo r) = true).
  { rewrite Hs, Hf. apply soma_valores_nn. }
  assert (Hti' : total_impostos r
                 = fold_left (fun acc v => acc + v)
                     (map (fun i => base_impostos r * snd i) IMPOSTOS) 0.0).
  { rewrite Hti, Hi, map_map. reflexivity. }
  assert (Hcond : fin taxa = true /\ (fval taxa <= 2 ^ bias)%Z /\
                  (fin (subtotal_consumo r) = true \/ 0 < fval taxa)%Z).
  { destruct (BANDEIRAS_values t taxa G) as [->|[->| ->]].
    - split; [reflexivity|]. split; [vm_compute; discriminate|].
      left. destruct (fin (subtotal_consumo r)) eqn:Fs; [reflexivity|].
      exfalso. rewrite Htf, Hti', Hb, Ha, (nn_notfin_inf _ Ns Fs) in Hnan.
      vm_compute in Hnan. discriminate Hnan.
    - split; [reflexivity|]. split; [vm_compute; discriminate|].
      right. vm_compute. reflexivity.
    - split; [reflexivity|]. split; [vm_compute; discriminate|].
      right. vm_compute. reflexivity. }
  destruct Hcond as (Ft & Ht1 & Hc).
  destruct (adicional_le _ taxa Ns Ft Ht1 Hc) as [Na Hale]. rewrite <- Ha in Na, Hale.
  destruct (add_ge _ _ Ns Na) as [Nb Hbge]. rewrite <- Hb in Nb, Hbge.
  pose proof (total_impostos_nn _ Nb) as Nt. rewrite <- Hti' in Nt.
  destruct (add_ge _ _ Nb Nt) as [Ntf Htge]. rewrite <- Htf in Ntf, Htge.
  rewrite !nn_leb, !leb_fval by assumption.
  repeat split; try assumption; apply Z.leb_le; assumption.
Qed.

Lemma fatura_ordered_witness :
  exists r,
    calcular_faturamento 250 "vermelha" = Py.Returned r /\
    (is_nan (total_final r) = false ->
     (0 <=? adicional_bandeira r) = true /\
     (adicional_bandeira r <=? subtotal_consumo r) = true /\
     (subtotal_consumo r <=? base_impostos r) = true /\
     (0 <=? total_impostos r) = true /\
     (base_impostos r <=? total_final r) = true).
Proof. apply (fatura_ordered 250 "vermelha"). reflexivity. Defined.

Lemma mul_mono_r (x k1 k2 : float) :
  fin x = true -> fin k1 = true -> fin k2 = true -> (fval k1 <= fval k2)%Z ->
  nn (x * k1) = true /\ nn (x * k2) = true /\ (fval (x * k1) <= fval (x * k2))%Z.
Proof.
  intros Fx F1 F2 Hk.
  destruct (mul_fval x k1 Fx F1) as [N1 V1].
  destruct (mul_fval x k2 Fx F2) as [N2 V2].
  split; [exact N1|]. split; [exact N2|]. rewrite V1, V2. apply Rz_mono.
  apply Z.div_le_mono; [apply pow2_pos; unfold bias; lia|].
  apply Z.mul_le_mono_nonneg_l; [apply fval_nonneg|exact Hk].
Qed.

(** X11: a costlier flag never lowers the bill: for every consumption
    whose subtotal is finite, the grand total under "verde" is at most the
    one under "amarela", which is at most the one under "vermelha". *)
Theorem total_final_by_flag (c : float)
  (Hs : is_finite (soma_valores (calcular_tarifacao_por_faixas c)) = true) :
  exists rv ra rm,
    calcular_faturamento c "verde" = Py.Returned rv /\
    calcular_faturamento c "amarela" = Py.Returned ra /\
    calcular_faturamento c "vermelha" = Py.Returned rm /\
    (total_final rv <=? total_final ra) = true /\
    (total_final ra <=? total_final rm) = true.
Proof.
  destruct (total_final_total_de c "verde" 0.0 eq_refl) as (rv & Hv & _ & Tv).
  destruct (total_final_total_de c "amarela" 0.05 eq_refl) as (ra & Ha & _ & Ta).
  destruct (total_final_total_de c "vermelha" 0.10 eq_refl) as (rm & Hm & _ & Tm).
  exists rv, ra, rm. split; [exact Hv|]. split; [exact Ha|]. split; [exact Hm|].
  rewrite Tv, Ta, Tm, !total_de_da_base.
  set (s := soma_valores (calcular_tarifacao_por_faixas c)) in *.
  pose proof (soma_valores_nn c) as Ns. fold s in Ns.
  rewrite (fin_finite s (nn_nneg s Ns)) in Hs.
  assert (Hstep : forall k1 k2, fin k1 = true -> fin k2 = true ->
            (fval k1 <= fval k2)%Z ->
            (total_da_base (s + s * k1) <=? total_da_base (s + s * k2)) = true).
  { intros k1 k2 F1 F2 Hk.
    destruct (mul_mono_r s k1 k2 Hs F1 F2 Hk) as (A1 & A2 & A3).
    destruct (add_mono s s _ _ Ns Ns A1 A2 (Z.le_refl _) A3) as (B1 & B2 & B3).
    destruct (total_da_base_mono _ _ B1 B2 B3) as (T1 & T2 & T3).
    rewrite leb_fval by assumption. apply Z.leb_le. exact T3. }
  split; apply Hstep; try reflexivity; vm_compute; discriminate.
Qed.

Lemma total_final_by_flag_witness :
  exists rv ra rm,
    calcular_faturamento 250 "verde" = Py.Returned rv /\
    calcular_faturamento 250 "amarela" = Py.Returned ra /\
    calcular_faturamento 250 "vermelha" = Py.Returned rm /\
    (total_final rv <=? total_final ra) = true /\
    (total_final ra <=? total_final rm) = true.
Proof. apply (total_final_by_flag 250). reflexivity. Defined.

(* ====================================================================== *)
(** * Further properties: the breakdown in closed form *)
(* ====================================================================== *)

Lemma TARIFAS_FAIXAS_faixas :
  TARIFAS_FAIXAS = [faixa_1; faixa_2; faixa_3; faixa_4].
Proof. reflexivity. Qed.

Lemma ltb_nn x y : nn x = true -> (x <? y) = true -> nn y = true.
Proof.
  unfold nn. rewrite ltb_spec. unfold SFltb.
  destruct (Prim2SF x) as [sx|[|]| |[|] mx ex]; try discriminate;
  destruct (Prim2SF y) as [sy|[|]| |[|] my ey]; try discriminate; reflexivity.
Qed.

(** Neither positive nor at most zero: a NaN. *)
Lemma unordered_nan (c : float) :
  (0 <? c) = false -> (c <=? 0) = false -> c = nan.
Proof.
  rewrite ltb_spec, leb_spec. intros H1 H2. apply Prim2SF_inj.
  change (Prim2SF nan) with S754_nan.
  change (Prim2SF 0) with (S754_zero false) in H1, H2.
  destruct (Prim2SF c) as [s|[|]| |[|] m e]; try reflexivity;
    try discriminate H1; try discriminate H2.
Qed.

(** A bracket that the remaining consumption exceeds is used in full. *)
Lemma laco_faixas_cheia f fs r res :
  (r <=? 0) = false -> (fim f - inicio f <? r) = true ->
  (0 <? fim f - inicio f) = true ->
  laco_faixas (f :: fs) r res
  = laco_faixas fs (r - (fim f - inicio f))
      (res ++ [item_de f (fim f - inicio f)])%list.
Proof.
  intros H0 H1 H2. cbn [laco_faixas]. rewrite H0.
  unfold calcular_faixa, Py.min. rewrite H1, H2. reflexivity.
Qed.

(** A bracket that holds the whole remaining consumption ends the loop. *)
Lemma laco_faixas_resto f fs r res :
  fin r = true -> (0 < fval r)%Z -> (fim f - inicio f <? r) = false ->
  laco_faixas (f :: fs) r res = (res ++ [item_de f r])%list.
Proof.
  intros Fr Pr Hw. pose proof (fin_is_nn r Fr) as Nr. cbn [laco_faixas].
  rewrite (leb_zero r Nr).
  replace (fval r <=? 0)%Z with false by (symmetry; apply Z.leb_gt; exact Pr).
  unfold calcular_faixa, Py.min. rewrite Hw, (ltb_zero r Nr).
  replace (0 <? fval r)%Z with true by (symmetry; apply Z.ltb_lt; exact Pr).
  destruct (sub_le r r Fr Fr (Z.le_refl _)) as (F0 & V0 & _).
  rewrite Z.sub_diag, Rz_nonpos in V0 by lia.
  apply laco_faixas_zero; [apply fin_is_nn; exact F0|exact V0].
Qed.

(** Subtracting a small multiple of 4 kWh: exact below 2^55 kWh, and
    above it the difference stays large. *)
Lemma sub_multiple (r k : float) :
  fin r = true -> fin k = true -> (2 ^ (bias + 2) | fval k)%Z ->
  (fval k <= 2 ^ (bias + 54))%Z -> (fval k < fval r)%Z ->
  fin (r - k) = true /\
  ((fval r < 2 ^ (bias + 55) /\ fval (r - k) = fval r - fval k)%Z \/
   (2 ^ (bias + 55) <= fval r /\ 2 ^ (bias + 54) <= fval (r - k))%Z).
Proof.
  intros Fr Fk Hd Hk Hlt.
  destruct (sub_le r k Fr Fk ltac:(lia)) as (Fd & Vd & _).
  split; [exact Fd|]. pose proof (fval_nonneg k) as Pk.
  assert (E55 : (2 ^ (bias + 55) = 2 * 2 ^ (bias + 54))%Z).
  { replace (bias + 55)%Z with (1 + (bias + 54))%Z by lia.
    rewrite Z.pow_add_r by (unfold bias; lia). reflexivity. }
  destruct (Z.lt_ge_cases (fval r) (2 ^ (bias + 55))) as [Hs|Hb].
  - left. split; [exact Hs|]. rewrite Vd. apply Rz_exact.
    apply difference_representable; try assumption. lia.
  - right. split; [exact Hb|]. rewrite Vd.
    assert (R : representable (2 ^ (bias + 54))).
    { apply multiple_representable.
      - pose proof (pow2_pos (bias + 54) ltac:(unfold bias; lia)). lia.
      - exists (2 ^ 52)%Z. rewrite <- Z.pow_add_r by (unfold bias; lia).
        f_equal; unfold bias; lia. }
    rewrite <- (Rz_exact _ R). apply Rz_mono. lia.
Qed.

Lemma laco_faixas_cheia_fval f fs r res :
  fin r = true -> fin (fim f - inicio f) = true ->
  (0 < fval (fim f - inicio f))%Z ->
  (2 ^ (bias + 2) | fval (fim f - inicio f))%Z ->
  (fval (fim f - inicio f) <= 2 ^ (bias + 54))%Z ->
  (fval (fim f - inicio f) < fval r)%Z ->
  laco_faixas (f :: fs) r res
  = laco_faixas fs (r - (fim f - inicio f))
      (res ++ [item_de f (fim f - inicio f)])%list /\
  fin (r - (fim f - inicio f)) = true /\
  ((fval r < 2 ^ (bias + 55) /\
    fval (r - (fim f - inicio f)) = fval r - fval (fim f - inicio f))%Z \/
   (2 ^ (bias + 55) <= fval r /\
    2 ^ (bias + 54) <= fval (r - (fim f - inicio f)))%Z).
Proof.
  intros Fr Fw Pw Hd Hk Hlt.
  pose proof (fin_is_nn r Fr) as Nr. pose proof (fin_is_nn _ Fw) as Nw.
  split; [|apply sub_multiple; assumption].
  apply laco_faixas_cheia.
  - rewrite (leb_zero r Nr). apply Z.leb_gt. lia.
  - rewrite ltb_fval by assumption. apply Z.ltb_lt. exact Hlt.
  - rewrite (ltb_zero _ Nw). apply Z.ltb_lt. exact Pw.
Qed.

(** X12: the breakdown in closed form, for every float.  Nothing is
    billed unless the consumption is positive; up to 100 kWh there is one
    line with the whole consumption; up to 200 kWh the first bracket is
    full and the second holds [c - 100]; up to 500 kWh the first two are
    full and the third holds [c - 100 - 100]; above 500 kWh the first three
    are full (100, 100 and 300 kWh) and the last holds
    [c - 100 - 100 - 300], each difference rounded as the loop computes
    it.  The lines carry the labels of the four brackets. *)
Theorem calcular_tarifacao_por_faixas_closed (c : float) :
  map rotulo [faixa_1; faixa_2; faixa_3; faixa_4]
  = ["0-100 kWh"; "100-200 kWh"; "200-500 kWh"; "500-∞ kWh"] /\
  ((0 <? c) = false -> calcular_tarifacao_por_faixas c = []) /\
  ((0 <? c) = true -> (c <=? 100) = true ->
   calcular_tarifacao_por_faixas c = [item_de faixa_1 c]) /\
  ((100 <? c) = true -> (c <=? 200) = true ->
   calcular_tarifacao_por_faixas c
   = [item_de faixa_1 100; item_de faixa_2 (c - 100)]) /\
  ((200 <? c) = true -> (c <=? 500) = true ->
   calcular_tarifacao_por_faixas c
   = [item_de faixa_1 100; item_de faixa_2 100;
      item_de faixa_3 (c - 100 - 100)]) /\
  ((500 <? c) = true ->
   calcular_tarifacao_por_faixas c
   = [item_de faixa_1 100; item_de faixa_2 100; item_de faixa_3 300;
      item_de faixa_4 (c - 100 - 100 - 300)]).
Proof.
  assert (E1 : fim faixa_1 - inicio faixa_1 = 100) by reflexivity.
  assert (E2 : fim faixa_2 - inicio faixa_2 = 100) by reflexivity.
  assert (E3 : fim faixa_3 - inicio faixa_3 = 300) by reflexivity.
  assert (E4 : fim faixa_4 - inicio faixa_4 = infinity) by reflexivity.
  assert (V100 : fval 100 = (100 * 2 ^ bias)%Z) by (vm_compute; reflexivity).
  assert (V200 : fval 200 = (200 * 2 ^ bias)%Z) by (vm_compute; reflexivity).
  assert (V300 : fval 300 = (300 * 2 ^ bias)%Z) by (vm_compute; reflexivity).
  assert (V500 : fval 500 = (500 * 2 ^ bias)%Z) by (vm_compute; reflexivity).
  assert (D100 : (2 ^ (bias + 2) | fval 100)%Z)
    by (exists 25%Z; vm_compute; reflexivity).
  assert (D300 : (2 ^ (bias + 2) | fval 300)%Z)
    by (exists 75%Z; vm_compute; reflexivity).
  assert (P54 : (2 ^ (bias + 54) = 18014398509481984 * 2 ^ bias)%Z)
    by (vm_compute; reflexivity).
  assert (P55 : (2 ^ (bias + 55) = 36028797018963968 * 2 ^ bias)%Z)
    by (vm_compute; reflexivity).
  assert (PU : (0 < 2 ^ bias)%Z) by (apply pow2_pos; unfold bias; lia).
  assert (N100 : nn 100 = true) by reflexivity.
  assert (N200 : nn 200 = true) by reflexivity.
  assert (N500 : nn 500 = true) by reflexivity.
  assert (F100 : fin 100 = true) by reflexivity.
  assert (F300 : fin 300 = true) by reflexivity.
  split; [reflexivity|].
  unfold calcular_tarifacao_por_faixas. rewrite TARIFAS_FAIXAS_faixas.
  split; [|split; [|split; [|split]]].
  - intros H. destruct (c <=? 0) eqn:Hle.
    + cbn [laco_faixas]. rewrite Hle. reflexivity.
    + rewrite (unordered_nan c H Hle). vm_compute. reflexivity.
  - intros H0 H1. destruct (ltb0_inv c H0) as [Nc Pc].
    rewrite leb_fval in H1 by assumption. apply Z.leb_le in H1.
    assert (Fc : fin c = true) by (apply (le_fin c 100); auto).
    rewrite laco_faixas_resto; [reflexivity|exact Fc|exact Pc|].
    rewrite E1, ltb_fval by assumption. apply Z.ltb_ge. exact H1.
  - intros H0 H1. pose proof (ltb_nn 100 c N100 H0) as Nc.
    rewrite ltb_fval in H0 by assumption. apply Z.ltb_lt in H0.
    rewrite leb_fval in H1 by assumption. apply Z.leb_le in H1.
    assert (Fc : fin c = true) by (apply (le_fin c 200); auto).
    destruct (laco_faixas_cheia_fval faixa_1 [faixa_2; faixa_3; faixa_4] c [])
      as (L1 & Fr1 & Hr1); rewrite ?E1; try assumption; try lia.
    rewrite L1, E1 in *. clear L1.
    rewrite laco_faixas_resto; [reflexivity|exact Fr1|lia|].
    rewrite E2, ltb_fval by auto using fin_is_nn. apply Z.ltb_ge. lia.
  - intros H0 H1. pose proof (ltb_nn 200 c N200 H0) as Nc.
    rewrite ltb_fval in H0 by assumption. apply Z.ltb_lt in H0.
    rewrite leb_fval in H1 by assumption. apply Z.leb_le in H1.
    assert (Fc : fin c = true) by (apply (le_fin c 500); auto).
    destruct (laco_faixas_cheia_fval faixa_1 [faixa_2; faixa_3; faixa_4] c [])
      as (L1 & Fr1 & Hr1); rewrite ?E1; try assumption; try lia.
    rewrite L1, E1 in *. clear L1.
    destruct (laco_faixas_cheia_fval faixa_2 [faixa_3; faixa_4] (c - 100)
                ([] ++ [item_de faixa_1 100]))
      as (L2 & Fr2 & Hr2); rewrite ?E2; try assumption; try lia.
    rewrite L2, E2 in *. clear L2.
    rewrite laco_faixas_resto; [reflexivity|exact Fr2|lia|].
    rewrite E3, ltb_fval by auto using fin_is_nn. apply Z.ltb_ge. lia.
  - intros H0. pose proof (ltb_nn 500 c N500 H0) as Nc.
    rewrite ltb_fval in H0 by assumption. apply Z.ltb_lt in H0.
    destruct (fin c) eqn:Fc;
      [|rewrite (nn_notfin_inf c Nc Fc); vm_compute; reflexivity].
    destruct (laco_faixas_cheia_fval faixa_1 [faixa_2; faixa_3; faixa_4] c [])
      as (L1 & Fr1 & Hr1); rewrite ?E1; try assumption; try lia.
    rewrite L1, E1 in *. clear L1.
    destruct (laco_faixas_cheia_fval faixa_2 [faixa_3; faixa_4] (c - 100)
                ([] ++ [item_de faixa_1 100]))
      as (L2 & Fr2 & Hr2); rewrite ?E2; try assumption; try lia.
    rewrite L2, E2 in *. clear L2.
    destruct (laco_faixas_cheia_fval faixa_3 [faixa_4] (c - 100 - 100)
                (([] ++ [item_de faixa_1 100]) ++ [item_de faixa_2 100]))
      as (L3 & Fr3 & Hr3); rewrite ?E3; try assumption; try lia.
    rewrite L3, E3 in *. clear L3.
    rewrite laco_faixas_resto; [reflexivity|exact Fr3|lia|].
    rewrite E4, ltb_fval by auto using fin_is_nn. apply Z.ltb_ge.
    change (fval infinity) with cap. apply fval_le_cap.
Qed.

(** X13: what one bracket takes.  For a bracket of the table and a
    remaining consumption that is not negative (and not a NaN), the
    quantity used is at most the remaining consumption and at most the
    width of the bracket, it is positive when the remaining consumption
    is, and, when the remaining consumption is finite, what is left after
    the bracket is not negative and not more than before. *)
Theorem calcular_faixa_bounds (r : float) (f : faixa_tarifa)
  (Hf : In f TARIFAS_FAIXAS) (Hr : (0 <=? r) = true) :
  (fst (calcular_faixa r f) <=? r) = true /\
  (fst (calcular_faixa r f) <=? fim f - inicio f) = true /\
  ((0 <? r) = true -> (0 <? fst (calcular_faixa r f)) = true) /\
  (is_finite r = true ->
   (0 <=? r - fst (calcular_faixa r f)) = true /\
   (r - fst (calcular_faixa r f) <=? r) = true).
Proof.
  pose proof TARIFAS_FAIXAS_ok as Hok. rewrite Forall_forall in Hok.
  destruct (Hok f Hf) as (Nw & Pw & _ & _).
  rewrite nn_leb in Hr. unfold calcular_faixa. cbn [fst].
  destruct (min_fval r (fim f - inicio f) Hr Nw) as [Nu Vu].
  set (u := Py.min r (fim f - inicio f)) in *.
  split; [rewrite leb_fval by assumption; apply Z.leb_le; lia|].
  split; [rewrite leb_fval by assumption; apply Z.leb_le; lia|].
  split.
  - intros H0. rewrite ltb_zero in * by assumption.
    apply Z.ltb_lt in H0. apply Z.ltb_lt. lia.
  - intros Hfin. rewrite (fin_finite r (nn_nneg r Hr)) in Hfin.
    assert (Fu : fin u = true) by (apply (le_fin u r); auto; lia).
    destruct (sub_le r u Hfin Fu ltac:(lia)) as (Fd & _ & Hd).
    pose proof (fin_is_nn _ Fd) as Nd.
    split; [rewrite nn_leb; exact Nd|].
    rewrite leb_fval by assumption. apply Z.leb_le. exact Hd.
Qed.

Lemma calcular_faixa_bounds_witness :
  (fst (calcular_faixa 250 faixa_1) <=? 250) = true /\
  (fst (calcular_faixa 250 faixa_1) <=? fim faixa_1 - inicio faixa_1) = true /\
  ((0 <? 250) = true -> (0 <? fst (calcular_faixa 250 faixa_1)) = true) /\
  (is_finite 250 = true ->
   (0 <=? 250 - fst (calcular_faixa 250 faixa_1)) = true /\
   (250 - fst (calcular_faixa 250 faixa_1) <=? 250) = true).
Proof.
  apply (calcular_faixa_bounds 250 faixa_1); [left; reflexivity|reflexivity].
Defined.

(* ====================================================================== *)
(** * Further properties: errors *)
(* ====================================================================== *)

(** X14: [calcular_faturamento] raises exactly when the flag is not a
    key of [BANDEIRAS] (it does not lower-case it), the exception is then
    the [KeyError] of that flag, whatever the consumption; otherwise it
    returns a bill. *)
Theorem calcular_faturamento_raises (c : float) (t : string) :
  (Py.contains BANDEIRAS t = false /\
   calcular_faturamento c t = Py.Raised (Py.KeyError t)) \/
  (Py.contains BANDEIRAS t = true /\
   exists r, calcular_faturamento c t = Py.Returned r).
Proof.
  unfold Py.contains. destruct (Py.get BANDEIRAS t) as [taxa|] eqn:G.
  - right. split; [reflexivity|].
    destruct (fatura_fields c t taxa G) as (r & Hr & _). exists r. exact Hr.
  - left. split; [reflexivity|].
    unfold calcular_faturamento, calcular_adicional_bandeira, Py.getitem.
    rewrite G. reflexivity.
Qed.

(** X15: what the handler of the button does with the texts "nan" and
    "inf", for every flag text that validates: "nan" is accepted and a
    bill of zero is displayed; "inf" is accepted, billed, and stopped by
    the invariant check. *)
Theorem calcular_nan_inf (bandeira_str : string)
  (Hb : Py.contains BANDEIRAS (Py.lower bandeira_str) = true) :
  calcular "nan" bandeira_str
  = inl (ExibirResultado (fatura_nula nan (Py.lower bandeira_str))) /\
  calcular "inf" bandeira_str
  = inl (MostrarErro "Erro" "Falha na verificação dos invariantes!").
Proof.
  unfold calcular, validar_entradas, validar_bandeira.
  change (validar_numero_positivo "nan") with (true, Some nan, "").
  change (validar_numero_positivo "inf") with (true, Some infinity, "").
  cbn [fst snd negb]. rewrite Hb. cbn [fst snd negb].
  rewrite (calcular_faturamento_nula nan (Py.lower bandeira_str) Hb
             (or_intror eq_refl)).
  split; [reflexivity|].
  unfold Py.contains in Hb.
  destruct (Py.get BANDEIRAS (Py.lower bandeira_str)) as [taxa|] eqn:G;
    [|discriminate Hb].
  destruct (fatura_fields infinity _ taxa G) as (r & Hr & _).
  rewrite Hr. rewrite (verificar_invariantes_calculada _ _ _ Hr).
  destruct (total_final_total_de infinity _ taxa G) as (r' & Hr' & _ & Ht).
  rewrite Hr in Hr'. injection Hr' as <-. rewrite Ht.
  destruct (BANDEIRAS_values _ taxa G) as [->|[->| ->]]; reflexivity.
Qed.

Lemma calcular_nan_inf_witness :
  calcular "nan" "Amarela"
  = inl (ExibirResultado (fatura_nula nan (Py.lower "Amarela"))) /\
  calcular "inf" "Amarela"
  = inl (MostrarErro "Erro" "Falha na verificação dos invariantes!").
Proof. apply (calcular_nan_inf "Amarela"). reflexivity. Defined.
